(** * forework.basetask: task contract, lifecycle and registry

    A shallow embedding of [forework/basetask.py] and the properties of
    its registry ([find_tasks], [find_tasks_by_filetype]) and of the task
    contract ([BaseTask]).

    Layout: the Python values the module handles and the two library
    calls it relies on ([json.dumps], [re.compile] / [Pattern.match])
    come first, then the module itself, then the theorems.

    Calls to the logger have no effect on the values and states
    studied here and are left out, as is [__repr__]. *)

From Stdlib Require Import List String Ascii ZArith Bool Arith Lia.
From Stdlib Require Import DecimalString.
From Stdlib Require DecimalFacts DecimalPos DecimalZ.
Import ListNotations.

Set Implicit Arguments.
Set Warnings "-register-all".
Set Warnings "-notation-overridden".
Set Warnings "-notation-incompatible-prefix".

Local Open Scope string_scope.
Local Open Scope list_scope.

(* ================================================================== *)
(** * Python values, exceptions and the state-and-exception monad *)
(* ================================================================== *)

Module Py.

(** The JSON-serializable Python values: [None], [bool], [int], [str],
    [list] and [dict] with string keys.  A [dict] keeps its insertion
    order, so it is an association list; lookups take the first binding
    of a key.  Floats are left out. *)
Inductive value : Type :=
| VNone
| VBool (b : bool)
| VInt (z : Z)
| VStr (s : string)
| VList (l : list value)
| VDict (d : list (string * value)).

(** The exception classes that the module raises, or that the
    interpreter raises on its behalf.  [detail] is the message when the
    source builds one with plain [{}] formatting; for the assertion of
    [find_tasks] it is the name looked up (the source renders it with
    [!r]); for interpreter errors it is the offending key or attribute. *)
Inductive exn_class : Type :=
| Exception
| AssertionError
| AttributeError
| NotImplementedError
| KeyError
| IndexError
| TypeError
| re_error.

Inductive exn : Type :=
| Exn (cls : exn_class) (detail : string).

Definition exn_cls (e : exn) : exn_class := let (c, _) := e in c.

(** A call either returns or raises. *)
Inductive outcome (A : Type) : Type :=
| Ok (a : A)
| Raise (e : exn).

Arguments Ok {A} a.
Arguments Raise {A} e.

(** Code that reads and writes a state [S] and may raise: the state is
    kept on both paths, as a Python object keeps the writes done before
    an exception. *)
Definition M (S A : Type) : Type := S -> outcome A * S.

Definition ret {S A : Type} (a : A) : M S A := fun s => (Ok a, s).

Definition raise {S A : Type} (e : exn) : M S A := fun s => (Raise e, s).

Definition bind {S A B : Type} (m : M S A) (k : A -> M S B) : M S B :=
  fun s =>
    match m s with
    | (Ok a, s') => k a s'
    | (Raise e, s') => (Raise e, s')
    end.

Definition get {S : Type} : M S S := fun s => (Ok s, s).

Definition put {S : Type} (s : S) : M S unit := fun _ => (Ok tt, s).

Definition modify {S : Type} (f : S -> S) : M S unit := fun s => (Ok tt, f s).

(** [d[k]] and [d.get(k, default)] on a [dict]. *)
Fixpoint dict_find (k : string) (d : list (string * value)) : option value :=
  match d with
  | [] => None
  | (k', v) :: d' => if String.eqb k k' then Some v else dict_find k d'
  end.

Definition dict_get (d : list (string * value)) (k : string) (default : value)
  : value :=
  match dict_find k d with
  | Some v => v
  | None => default
  end.

End Py.

Import Py.

Declare Scope py_scope.
Delimit Scope py_scope with py.
Notation "x <- c ;; k" := (bind c (fun x => k))
  (at level 61, c at next level, right associativity) : py_scope.
Notation "c ;;; k" := (bind c (fun _ => k))
  (at level 61, right associativity) : py_scope.

(* ================================================================== *)
(** * [re]: the patterns of the capability check *)
(* ================================================================== *)

Module Re.

(** The patterns of the fragment, as abstract syntax.  [Bol] and [Eol]
    are [^] and [$]. *)
Inductive regex : Type :=
| Empty
| Lit (c : ascii)
| Dot
| Bol
| Eol
| Cat (r1 r2 : regex)
| Alt (r1 r2 : regex)
| Star (r : regex).

Definition newline : ascii := "010"%char.

(** A position in the subject string: whether it is offset 0, and the
    characters still to read. *)
Definition pos : Type := (bool * list ascii)%type.

Definition shorter (x y : pos) : bool :=
  Nat.ltb (List.length (snd y)) (List.length (snd x)).

(** A greedy repetition of [body]: it only iterates on a body match
    that consumed input, so [n] iterations are enough when [n] is the
    number of characters left. *)
Section Repeat.

Variable body : pos -> list pos.

Fixpoint repeat (n : nat) (y : pos) {struct n} : list pos :=
  match n with
  | O => [y]
  | S n' => flat_map (repeat n') (filter (shorter y) (body y)) ++ [y]
  end.

End Repeat.

(** [ends r x]: the positions at which a match of [r] started at [x]
    can end, in the order the backtracking matcher tries them (left
    alternative first, greedy repetition). *)
Fixpoint ends (r : regex) (x : pos) : list pos :=
  match r with
  | Empty => [x]
  | Lit c =>
      match snd x with
      | a :: s => if Ascii.eqb a c then [(false, s)] else []
      | [] => []
      end
  | Dot =>
      match snd x with
      | a :: s => if Ascii.eqb a newline then [] else [(false, s)]
      | [] => []
      end
  | Bol => if fst x then [x] else []
  | Eol =>
      match snd x with
      | [] => [x]
      | [a] => if Ascii.eqb a newline then [x] else []
      | _ => []
      end
  | Cat r1 r2 => flat_map (ends r2) (ends r1 x)
  | Alt r1 r2 => ends r1 x ++ ends r2 x
  | Star r1 => repeat (ends r1) (List.length (snd x)) x
  end.

(** The same, as a relation: [rmatch r x y] when [r] matches the
    characters between the positions [x] and [y]. *)
Inductive rmatch : regex -> pos -> pos -> Prop :=
| MEmpty x : rmatch Empty x x
| MLit c b s : rmatch (Lit c) (b, c :: s) (false, s)
| MDot c b s : c <> newline -> rmatch Dot (b, c :: s) (false, s)
| MBol s : rmatch Bol (true, s) (true, s)
| MEol b s : s = [] \/ s = [newline] -> rmatch Eol (b, s) (b, s)
| MCat r1 r2 x y z : rmatch r1 x y -> rmatch r2 y z -> rmatch (Cat r1 r2) x z
| MAltL r1 r2 x y : rmatch r1 x y -> rmatch (Alt r1 r2) x y
| MAltR r1 r2 x y : rmatch r2 x y -> rmatch (Alt r1 r2) x y
| MStar0 r x : rmatch (Star r) x x
| MStarS r x y z :
    rmatch r x y -> rmatch (Star r) y z -> rmatch (Star r) x z.

(** [r] matches a prefix [p] of the subject [s], whatever follows. *)
Definition matches_prefix (r : regex) (s : string) : Prop :=
  exists (p q : list ascii) (b : bool),
    list_ascii_of_string s = p ++ q /\ rmatch r (true, p ++ q) (b, q).

(** [Pattern.match(s)]: a match anchored at offset 0; the result is the
    end offset of the match object, or [None]. *)
Definition re_match (r : regex) (s : string) : option nat :=
  match ends r (true, list_ascii_of_string s) with
  | [] => None
  | y :: _ => Some (String.length s - List.length (snd y))
  end.

(** The concrete syntax of the fragment: literal characters, [.],
    [^], [$], a backslash before a character that is not a letter or a
    digit, and the greedy postfix [*], [+], [?] on a one-character
    atom.  Groups, classes, alternation, counted, lazy and possessive
    repetition and the escapes of letters and digits are outside it. *)
Inductive token : Type :=
| TLit (c : ascii)
| TDot
| TBol
| TEol
| TStar
| TPlus
| TQuest.

(** What reading a pattern gives: a pattern of the fragment; an error
    of the pattern, for which [re.compile] raises [re.error]; or syntax
    outside the fragment, about which nothing is said here. *)
Inductive reading (A : Type) : Type :=
| Parsed (a : A)
| Malformed
| Unmodelled.

Arguments Parsed {A} a.
Arguments Malformed {A}.
Arguments Unmodelled {A}.

Definition reading_map {A B : Type} (f : A -> B) (x : reading A)
  : reading B :=
  match x with
  | Parsed a => Parsed (f a)
  | Malformed => Malformed
  | Unmodelled => Unmodelled
  end.

Definition is_alnum (c : ascii) : bool :=
  let n := nat_of_ascii c in
  (((48 <=? n) && (n <=? 57)) || ((65 <=? n) && (n <=? 90))
   || ((97 <=? n) && (n <=? 122)))%nat.

Definition reserved : list ascii :=
  ["("; ")"; "["; "]"; "{"; "}"; "|"]%char.

(** The first character outside the fragment ends the reading; a
    backslash at the end of a pattern is an error. *)
Fixpoint tokens (escaped : bool) (p : list ascii) : reading (list token) :=
  match p with
  | [] => if escaped then Malformed else Parsed []
  | c :: p' =>
      if escaped then
        if is_alnum c then Unmodelled
        else reading_map (cons (TLit c)) (tokens false p')
      else if Ascii.eqb c "\"%char then tokens true p'
      else if existsb (Ascii.eqb c) reserved then Unmodelled
      else
        let t :=
          if Ascii.eqb c "."%char then TDot
          else if Ascii.eqb c "^"%char then TBol
          else if Ascii.eqb c "$"%char then TEol
          else if Ascii.eqb c "*"%char then TStar
          else if Ascii.eqb c "+"%char then TPlus
          else if Ascii.eqb c "?"%char then TQuest
          else TLit c in
        reading_map (cons t) (tokens false p')
  end.

(** The atom a token stands for, and whether it can be repeated. *)
Definition atom (t : token) : option (regex * bool) :=
  match t with
  | TLit c => Some (Lit c, true)
  | TDot => Some (Dot, true)
  | TBol => Some (Bol, false)
  | TEol => Some (Eol, false)
  | TStar | TPlus | TQuest => None
  end.

Definition quantify (q : token) (a : regex) : option regex :=
  match q with
  | TStar => Some (Star a)
  | TPlus => Some (Cat a (Star a))
  | TQuest => Some (Alt a Empty)
  | _ => None
  end.

(** A [*], [+] or [?] with nothing to repeat, or on [^] or [$], is an
    error, and so is a [*] after a repetition.  A [?] or [+] after a
    repetition makes it lazy or possessive: outside the fragment. *)
Fixpoint parse (ts : list token) : reading regex :=
  match ts with
  | [] => Parsed Empty
  | t :: ts' =>
      match atom t with
      | None => Malformed
      | Some (a, repeatable) =>
          match ts' with
          | q :: ts'' =>
              match quantify q a with
              | Some qa =>
                  if repeatable then
                    match ts'' with
                    | TStar :: _ => Malformed
                    | TPlus :: _ | TQuest :: _ => Unmodelled
                    | _ => reading_map (Cat qa) (parse ts'')
                    end
                  else Malformed
              | None => reading_map (Cat a) (parse ts')
              end
          | [] => Parsed (Cat a Empty)
          end
      end
  end.

Definition re_parse (p : string) : reading regex :=
  match tokens false (list_ascii_of_string p) with
  | Parsed ts => parse ts
  | Malformed => Malformed
  | Unmodelled => Unmodelled
  end.

(** A pattern object, as [re.compile] returns it: a pattern of the
    fragment, or a pattern outside it, known only by what its [match]
    method returns (the end offset of the match object, or [None]). *)
Inductive Pattern : Type :=
| Fragment (r : regex)
| Foreign (m : string -> option nat).

Definition Pattern_match (p : Pattern) (s : string) : option nat :=
  match p with
  | Fragment r => re_match r s
  | Foreign m => m s
  end.

(** [re.compile(p)]; [None] stands for [re.error].  [foreign] is what
    the library makes of [p] when [p] lies outside the fragment: [None]
    when it raises [re.error], else the [match] method of the pattern
    object it returns. *)
Definition re_compile (foreign : option (string -> option nat)) (p : string)
  : option Pattern :=
  match re_parse p with
  | Parsed r => Some (Fragment r)
  | Malformed => None
  | Unmodelled => option_map Foreign foreign
  end.

(** A pattern without [$]. *)
Fixpoint eol_free (r : regex) : bool :=
  match r with
  | Eol => false
  | Cat r1 r2 | Alt r1 r2 => eol_free r1 && eol_free r2
  | Star r1 => eol_free r1
  | _ => true
  end.

End Re.

(* ================================================================== *)
(** * [json.dumps] with its default settings *)
(* ================================================================== *)

Module Json.

Local Open Scope string_scope.

Definition quote : ascii := "034"%char.
Definition backslash : ascii := "092"%char.

Definition hex_digit (n : nat) : ascii :=
  nth n ["0"; "1"; "2"; "3"; "4"; "5"; "6"; "7"; "8"; "9";
         "a"; "b"; "c"; "d"; "e"; "f"]%char "0"%char.

(** One character of a string literal, with [ensure_ascii=True]: the
    printable ASCII characters stand for themselves, the quote and the
    backslash are escaped, and everything else is written as a short
    escape or as [\u00xx].  A character is a code point below 256. *)
Definition escape_char (c : ascii) : string :=
  let n := nat_of_ascii c in
  if Ascii.eqb c quote then String backslash (String quote "")
  else if Ascii.eqb c backslash then String backslash (String backslash "")
  else if Nat.eqb n 8 then String backslash "b"
  else if Nat.eqb n 9 then String backslash "t"
  else if Nat.eqb n 10 then String backslash "n"
  else if Nat.eqb n 12 then String backslash "f"
  else if Nat.eqb n 13 then String backslash "r"
  else if (Nat.leb 32 n && Nat.leb n 126)%bool then String c ""
  else String backslash
         ("u00" ++ String (hex_digit (n / 16)) (String (hex_digit (n mod 16)) "")).

Fixpoint escape (s : string) : string :=
  match s with
  | EmptyString => ""
  | String c s' => escape_char c ++ escape s'
  end.

Definition encode_str (s : string) : string :=
  String quote (escape s ++ String quote "").

Fixpoint dumps (v : value) : string :=
  match v with
  | VNone => "null"
  | VBool true => "true"
  | VBool false => "false"
  | VInt z => NilZero.string_of_int (Z.to_int z)
  | VStr s => encode_str s
  | VList l => "[" ++ String.concat ", " (map dumps l) ++ "]"
  | VDict d =>
      "{" ++ String.concat ", "
               (map (fun kv => encode_str (fst kv) ++ ": " ++ dumps (snd kv)) d)
          ++ "}"
  end.

(** The printable ASCII characters, from the space to the tilde. *)
Definition printable (c : ascii) : bool :=
  let n := nat_of_ascii c in (Nat.leb 32 n && Nat.leb n 126)%bool.

Fixpoint all_printable (s : string) : bool :=
  match s with
  | EmptyString => true
  | String c s' => (printable c && all_printable s')%bool
  end.

End Json.

(* ================================================================== *)
(** * [json.loads] with its default settings *)
(* ================================================================== *)

Module Loads.

Local Open Scope string_scope.

(** The four whitespace characters that the decoder skips. *)
Definition is_ws (c : ascii) : bool :=
  existsb (Ascii.eqb c) [" "; "009"; "010"; "013"]%char.

Fixpoint skip_ws (s : string) : string :=
  match s with
  | String c s' => if is_ws c then skip_ws s' else s
  | EmptyString => s
  end.

(** The four hexadecimal digits of a [\u] escape. *)
Definition hex_val (c : ascii) : option nat :=
  let n := nat_of_ascii c in
  if (Nat.leb 48 n && Nat.leb n 57)%bool then Some (n - 48)
  else if (Nat.leb 97 n && Nat.leb n 102)%bool then Some (n - 87)
  else if (Nat.leb 65 n && Nat.leb n 70)%bool then Some (n - 55)
  else None.

Definition hex4 (h1 h2 h3 h4 : ascii) : option nat :=
  match hex_val h1, hex_val h2, hex_val h3, hex_val h4 with
  | Some a, Some b, Some c, Some d => Some (((a * 16 + b) * 16 + c) * 16 + d)
  | _, _, _, _ => None
  end.

(** The one-character escapes. *)
Definition unescape (e : ascii) : option ascii :=
  if Ascii.eqb e Json.quote then Some Json.quote
  else if Ascii.eqb e Json.backslash then Some Json.backslash
  else if Ascii.eqb e "/" then Some "/"%char
  else if Ascii.eqb e "b" then Some "008"%char
  else if Ascii.eqb e "f" then Some "012"%char
  else if Ascii.eqb e "n" then Some "010"%char
  else if Ascii.eqb e "r" then Some "013"%char
  else if Ascii.eqb e "t" then Some "009"%char
  else None.

Definition cons_char (c : ascii) (r : option (string * string))
  : option (string * string) :=
  match r with
  | Some (str, rest) => Some (String c str, rest)
  | None => None
  end.

(** The rest of a string literal, after its opening quote: the
    decoded string and what follows the closing quote.  A raw control
    character is refused (strict mode), and so is a [\u] escape of a
    code point above 255, which a character here cannot hold. *)
Fixpoint scanstring (s : string) : option (string * string) :=
  match s with
  | EmptyString => None
  | String c s' =>
      if Ascii.eqb c Json.quote then Some (EmptyString, s')
      else if Ascii.eqb c Json.backslash then
        match s' with
        | String e s'' =>
            if Ascii.eqb e "u" then
              match s'' with
              | String h1 (String h2 (String h3 (String h4 s3))) =>
                  match hex4 h1 h2 h3 h4 with
                  | Some n =>
                      if Nat.ltb n 256
                      then cons_char (ascii_of_nat n) (scanstring s3)
                      else None
                  | None => None
                  end
              | _ => None
              end
            else
              match unescape e with
              | Some ch => cons_char ch (scanstring s'')
              | None => None
              end
        | EmptyString => None
        end
      else if Nat.ltb (nat_of_ascii c) 32 then None
      else cons_char c (scanstring s')
  end.

(** Numbers: an optional minus sign, then [0] or digits that do not
    start with [0], read as a decimal integer. *)
Definition digit (c : ascii) : option (Decimal.uint -> Decimal.uint) :=
  if Ascii.eqb c "0" then Some Decimal.D0
  else if Ascii.eqb c "1" then Some Decimal.D1
  else if Ascii.eqb c "2" then Some Decimal.D2
  else if Ascii.eqb c "3" then Some Decimal.D3
  else if Ascii.eqb c "4" then Some Decimal.D4
  else if Ascii.eqb c "5" then Some Decimal.D5
  else if Ascii.eqb c "6" then Some Decimal.D6
  else if Ascii.eqb c "7" then Some Decimal.D7
  else if Ascii.eqb c "8" then Some Decimal.D8
  else if Ascii.eqb c "9" then Some Decimal.D9
  else None.

Fixpoint read_uint (s : string) : Decimal.uint * string :=
  match s with
  | String c s' =>
      match digit c with
      | Some D => let (d, r) := read_uint s' in (D d, r)
      | None => (Decimal.Nil, s)
      end
  | EmptyString => (Decimal.Nil, s)
  end.

Definition scan_int (s : string) : option (Decimal.uint * string) :=
  match s with
  | String c s' =>
      if Ascii.eqb c "0" then Some (Decimal.D0 Decimal.Nil, s')
      else match digit c with
           | Some _ => Some (read_uint s)
           | None => None
           end
  | EmptyString => None
  end.

(** A fraction or an exponent would make the number a float, which is
    outside the values modelled; any other use of these characters
    after an integer is an error of the decoder. *)
Definition float_follows (s : string) : bool :=
  match s with
  | String c _ => existsb (Ascii.eqb c) ["."; "e"; "E"]%char
  | EmptyString => false
  end.

Definition scan_number (s : string) : option (Z * string) :=
  let '(neg, s1) :=
    match s with
    | String c s' => if Ascii.eqb c "-" then (true, s') else (false, s)
    | EmptyString => (false, s)
    end in
  match scan_int s1 with
  | Some (d, r) =>
      if float_follows r then None
      else Some (Z.of_int (if neg then Decimal.Neg d else Decimal.Pos d), r)
  | None => None
  end.

(** [dict(pairs)]: a repeated key keeps its first position and takes
    its last value. *)
Fixpoint dict_set (k : string) (v : value) (d : list (string * value))
  : list (string * value) :=
  match d with
  | [] => [(k, v)]
  | (k', v') :: d' =>
      if String.eqb k k' then (k, v) :: d' else (k', v') :: dict_set k v d'
  end.

Definition dict_of_pairs (pairs : list (string * value))
  : list (string * value) :=
  fold_left (fun d kv => dict_set (fst kv) (snd kv) d) pairs [].

(** The literals [null], [true] and [false]. *)
Fixpoint strip_prefix (word s : string) : option string :=
  match word with
  | EmptyString => Some s
  | String a word' =>
      match s with
      | String b s' => if Ascii.eqb a b then strip_prefix word' s' else None
      | EmptyString => None
      end
  end.

Definition literal (word : string) (v : value) (s : string)
  : option (value * string) :=
  match strip_prefix word s with
  | Some r => Some (v, r)
  | None => None
  end.

(** One value, the elements of an array after its first bracket, and
    the members of an object after the quote that opens a key.  Every
    call reads at least one character, so a fuel above the length of
    the text is never exhausted. *)
Fixpoint scan_once (fuel : nat) (s : string) {struct fuel}
  : option (value * string) :=
  match fuel with
  | O => None
  | S fuel' =>
      match s with
      | EmptyString => None
      | String c s' =>
          if Ascii.eqb c Json.quote then
            match scanstring s' with
            | Some (str, r) => Some (VStr str, r)
            | None => None
            end
          else if Ascii.eqb c "{" then
            match skip_ws s' with
            | String c1 r1 =>
                if Ascii.eqb c1 "}" then Some (VDict [], r1)
                else if Ascii.eqb c1 Json.quote then
                  match members fuel' r1 with
                  | Some (pairs, r) => Some (VDict (dict_of_pairs pairs), r)
                  | None => None
                  end
                else None
            | EmptyString => None
            end
          else if Ascii.eqb c "[" then
            match skip_ws s' with
            | String c1 r1 =>
                if Ascii.eqb c1 "]" then Some (VList [], r1)
                else
                  match elements fuel' (String c1 r1) with
                  | Some (l, r) => Some (VList l, r)
                  | None => None
                  end
            | EmptyString => None
            end
          else if Ascii.eqb c "n" then literal "null" VNone s
          else if Ascii.eqb c "t" then literal "true" (VBool true) s
          else if Ascii.eqb c "f" then literal "false" (VBool false) s
          else
            match scan_number s with
            | Some (z, r) => Some (VInt z, r)
            | None => None
            end
      end
  end
with elements (fuel : nat) (s : string) {struct fuel}
  : option (list value * string) :=
  match fuel with
  | O => None
  | S fuel' =>
      match scan_once fuel' s with
      | Some (v, r) =>
          match skip_ws r with
          | String c r' =>
              if Ascii.eqb c "]" then Some ([v], r')
              else if Ascii.eqb c "," then
                match elements fuel' (skip_ws r') with
                | Some (l, r'') => Some (v :: l, r'')
                | None => None
                end
              else None
          | EmptyString => None
          end
      | None => None
      end
  end
with members (fuel : nat) (s : string) {struct fuel}
  : option (list (string * value) * string) :=
  match fuel with
  | O => None
  | S fuel' =>
      match scanstring s with
      | Some (k, r) =>
          match skip_ws r with
          | String c r1 =>
              if Ascii.eqb c ":" then
                match scan_once fuel' (skip_ws r1) with
                | Some (v, r2) =>
                    match skip_ws r2 with
                    | String c2 r3 =>
                        if Ascii.eqb c2 "}" then Some ([(k, v)], r3)
                        else if Ascii.eqb c2 "," then
                          match skip_ws r3 with
                          | String c3 r4 =>
                              if Ascii.eqb c3 Json.quote then
                                match members fuel' r4 with
                                | Some (l, r5) => Some ((k, v) :: l, r5)
                                | None => None
                                end
                              else None
                          | EmptyString => None
                          end
                        else None
                    | EmptyString => None
                    end
                | None => None
                end
              else None
          | EmptyString => None
          end
      | None => None
      end
  end.

(** [json.loads(s)] for a text [s]; [None] stands for
    [JSONDecodeError], and for a text outside what is modelled
    (floats, [NaN] and the infinities, code points above 255). *)
Definition loads (s : string) : option value :=
  match scan_once (S (String.length s)) (skip_ws s) with
  | Some (v, r) =>
      match skip_ws r with
      | EmptyString => Some v
      | _ => None
      end
  | None => None
  end.

(** Values in which no dict binds a key twice. *)
Fixpoint well_formed (v : value) : Prop :=
  match v with
  | VList l => fold_right (fun x P => well_formed x /\ P) True l
  | VDict d =>
      NoDup (map fst d)
      /\ fold_right (fun kv P => well_formed (snd kv) /\ P) True d
  | _ => True
  end.

(** The fuel that reading a value back takes. *)
Fixpoint size (v : value) : nat :=
  match v with
  | VList l => S (fold_right (fun x n => S (size x) + n) 0 l)
  | VDict d => S (fold_right (fun kv n => S (size (snd kv)) + n) 0 d)
  | _ => 1
  end.

(** What may follow a number: neither a digit, nor the start of a
    fraction or of an exponent. *)
Definition stop (s : string) : Prop :=
  match s with
  | String c _ => digit c = None /\ float_follows s = false
  | EmptyString => True
  end.

(** The text of the elements of a list, and of the members of a dict
    after the quote that opens the first key, as [Json.dumps] writes
    them before [rest]. *)
Fixpoint elements_text (l : list value) (rest : string) : string :=
  match l with
  | [] => rest
  | x :: l' =>
      Json.dumps x ++
      match l' with
      | [] => String "]" rest
      | _ => String "," (String " " (elements_text l' rest))
      end
  end.

Fixpoint members_text (d : list (string * value)) (rest : string) : string :=
  match d with
  | [] => rest
  | (k, v) :: d' =>
      Json.escape k ++
      String Json.quote
        (String ":" (String " "
           (Json.dumps v ++
            match d' with
            | [] => String "}" rest
            | _ =>
                String "," (String " "
                  (String Json.quote (members_text d' rest)))
            end)))
  end.

Definition no_digit (s : string) : Prop :=
  match s with
  | String c _ => digit c = None
  | EmptyString => True
  end.

(** A value that is read back from its text, whatever follows. *)
Definition reads (v : value) : Prop :=
  well_formed v ->
  forall fuel rest,
    size v <= fuel -> stop rest ->
    scan_once fuel (Json.dumps v ++ rest) = Some (v, rest).

End Loads.

(* ================================================================== *)
(** * [forework.basetask] *)
(* ================================================================== *)

Module Basetask.

Import Re.

Local Open Scope py_scope.

Definition PRIO_LOW : Z := (-10)%Z.
Definition PRIO_NORMAL : Z := 0%Z.
Definition PRIO_HIGH : Z := 10%Z.

(** ** Objects *)

(** A class object is known by its identity. *)
Definition cid : Type := nat.

(** The attributes of a [BaseTask] instance, as [__init__] creates
    them.  [_cls] is [self.__class__]. *)
Record task : Type := mkTask {
  _cls : cid;
  _name : string;
  _path : value;
  _done : bool;
  _result : value;
  _priority : value;
  _next_tasks : list value
}.

Definition set__done (b : bool) (t : task) : task :=
  mkTask (_cls t) (_name t) (_path t) b (_result t) (_priority t)
         (_next_tasks t).

Definition set__result (v : value) (t : task) : task :=
  mkTask (_cls t) (_name t) (_path t) (_done t) v (_priority t)
         (_next_tasks t).

Definition set__next_tasks (l : list value) (t : task) : task :=
  mkTask (_cls t) (_name t) (_path t) (_done t) (_result t) (_priority t) l.

(** What the module reads from a class object.  [plain_type] is
    [type(cls) == type] and [derives_BaseTask] is
    [issubclass(cls, BaseTask)].  [ancestors] is the rest of
    [cls.__mro__] after [cls] itself, in order ([object], which has no
    attribute of interest, is left out).

    [MAGIC_PATTERN] and [_name_attr] are never assigned by the module,
    so they are kept as the values that attribute lookup on the class
    gives: [BaseTask] sets [MAGIC_PATTERN] to [None] and has no class
    attribute [_name] (instances get theirs in [__init__]), so
    [_name_attr] is [None] unless a subclass declares one.
    [foreign_rx] is what [re.compile] makes of [MAGIC_PATTERN] when
    the pattern lies outside the fragment of [Re] (see
    [Re.re_compile]).

    [_rx] is assigned by [can_handle], so it is kept as the entry of
    the class's own namespace: [None] when the class has no entry
    [_rx] of its own (lookup goes on to its ancestors), [Some None]
    when it has [_rx = None], as [BaseTask] does, and
    [Some (Some rx)] when it holds a pattern object.

    [run] is the work routine of the class, acting on the instance. *)
Record class_attrs : Type := mkClass {
  __name__ : string;
  plain_type : bool;
  derives_BaseTask : bool;
  ancestors : list cid;
  MAGIC_PATTERN : option string;
  foreign_rx : option (string -> option nat);
  _rx : option (option Pattern);
  _name_attr : option string;
  run : M task unit
}.

(** [cls._rx = rx]: an assignment writes the entry of [cls] itself. *)
Definition set__rx (rx : Pattern) (k : class_attrs) : class_attrs :=
  mkClass (__name__ k) (plain_type k) (derives_BaseTask k) (ancestors k)
          (MAGIC_PATTERN k) (foreign_rx k) (Some (Some rx)) (_name_attr k)
          (run k).

(** What a module attribute can be bound to. *)
Inductive pyobj : Type :=
| OClass (c : cid)
| OOther.

(** The identity of [BaseTask] itself. *)
Definition BaseTask : cid := 0.

(** The mutable state: the module global [_tasks_cache] and the class
    objects. *)
Record world : Type := mkWorld {
  _tasks_cache : option (list cid);
  classes : cid -> class_attrs
}.

(** The class object [c] becomes [k]; the other class objects are as
    they were. *)
Definition set_class (c : cid) (k : class_attrs) (w : world) : world :=
  mkWorld (_tasks_cache w)
          (fun c' => if Nat.eqb c' c then k else classes w c').

(** What the module reads from its environment: the flag of
    [forework.config], and the package [forework.tasks] as [dir] lists
    it, module after module, each with its attributes in the order of
    [dir]; every listed name is taken to be an importable submodule. *)
Record env : Type := mkEnv {
  ENABLE_TASKS_CACHE : bool;
  tasks_package : list (string * list (string * pyobj))
}.

(** ** [find_tasks] *)

(** [s[:2] == '__'] *)
Definition dunder (s : string) : bool := String.eqb (substring 0 2 s) "__".

(** [classname == name or name is None] *)
Definition selected (classname : string) (name : value) : bool :=
  match name with
  | VNone => true
  | VStr s => String.eqb classname s
  | _ => false
  end.

(** [type(cls) == type and cls != BaseTask and issubclass(cls, BaseTask)] *)
Definition is_task_class (w : world) (o : pyobj) : option cid :=
  match o with
  | OClass c =>
      if plain_type (classes w c) && negb (Nat.eqb c BaseTask)
         && derives_BaseTask (classes w c)
      then Some c else None
  | OOther => None
  end.

(** The inner loop, over the attributes of one module. *)
Definition scan_module (w : world) (name : value) (tasks : list cid)
  (module : list (string * pyobj)) : list cid :=
  fold_left
    (fun tasks binding =>
       let '(classname, cls) := binding in
       if selected classname name then
         match is_task_class w cls with
         | Some c => tasks ++ [c]
         | None => tasks
         end
       else tasks)
    (filter (fun binding => negb (dunder (fst binding))) module)
    tasks.

(** The outer loop, over the modules of the package. *)
Definition scan (w : world) (E : env) (name : value) : list cid :=
  fold_left
    (fun tasks m => scan_module w name tasks (snd m))
    (filter (fun m => negb (dunder (fst m))) (tasks_package E))
    [].

Definition find_tasks (E : env) (name : value) (rebuild_cache : bool)
  : M world (list cid) :=
  w <- get ;;
  match (if ENABLE_TASKS_CACHE E && negb rebuild_cache
         then _tasks_cache w else None) with
  | Some cache => ret cache
  | None =>
      let tasks := scan w E name in
      match name with
      | VNone => ret tasks
      | _ =>
          if (List.length tasks <=? 1)%nat then ret tasks
          else raise (Exn AssertionError
                          match name with VStr s => s | _ => "" end)
      end
  end.

(** ** [BaseTask.can_handle] (a class method: the receiver is the class) *)

(** Reading [cls._rx]: the entry of the first class of the [__mro__]
    that has one. *)
Fixpoint lookup_rx (K : cid -> class_attrs) (mro : list cid)
  : option (option Pattern) :=
  match mro with
  | [] => None
  | c :: rest =>
      match _rx (K c) with
      | Some entry => Some entry
      | None => lookup_rx K rest
      end
  end.

Definition get__rx (w : world) (c : cid) : option (option Pattern) :=
  lookup_rx (classes w) (c :: ancestors (classes w c)).

Definition can_handle (c : cid) (magic_string : string)
  : M world (option nat) :=
  w <- get ;;
  let self := classes w c in
  match MAGIC_PATTERN self with
  | None =>
      match _name_attr self with
      | None => raise (Exn AttributeError "_name")
      | Some name =>
          raise (Exn Exception
                     ("MAGIC_PATTERN must be defined by the task " ++ name)%string)
      end
  | Some pattern =>
      rx <- match get__rx w c with
            | None => raise (Exn AttributeError "_rx")
            | Some (Some rx) => ret rx
            | Some None =>
                match re_compile (foreign_rx self) pattern with
                | Some rx => modify (set_class c (set__rx rx self)) ;;; ret rx
                | None => raise (Exn re_error pattern)
                end
            end ;;
      ret (Pattern_match rx magic_string)
  end.

(** ** [find_tasks_by_filetype] *)

(** The function returns a name, or a list of names. *)
Inductive names : Type :=
| Name (n : string)
| Names (l : list string).

Fixpoint suitable (filetype : string) (first_only : bool)
  (all_tasks : list cid) (suitable_tasks : list string) : M world names :=
  match all_tasks with
  | [] => ret (Names suitable_tasks)
  | task :: rest =>
      m <- can_handle task filetype ;;
      match m with
      | Some _ =>
          w <- get ;;
          let n := __name__ (classes w task) in
          if first_only then ret (Name n)
          else suitable filetype first_only rest (suitable_tasks ++ [n])
      | None => suitable filetype first_only rest suitable_tasks
      end
  end.

Definition find_tasks_by_filetype (E : env) (filetype : string)
  (first_only : bool) : M world names :=
  all_tasks <- find_tasks E VNone false ;;
  suitable filetype first_only all_tasks [].

(** ** [BaseTask]: the instance methods *)

(** [cls(path, priority=priority)], with the inherited [__init__]. *)
Definition new (w : world) (c : cid) (path priority : value) : task :=
  mkTask c (__name__ (classes w c)) path false VNone priority [].

(** The property [done]. *)
Definition done (t : task) : bool := _done t.

Definition done_setter (w : world) (v : value) : M task unit :=
  self <- get ;;
  match v with
  | VBool b => put (set__done b self)
  | _ =>
      raise (Exn Exception
                 ("Value for " ++ __name__ (classes w (_cls self))
                  ++ ".done must be a boolean")%string)
  end.

Definition add_next_task (jsondata : value) : M task unit :=
  modify (fun self => set__next_tasks (_next_tasks self ++ [jsondata]) self).

Definition get_next_tasks (self : task) : list string :=
  map Json.dumps (_next_tasks self).

Definition get_result (self : task) : value :=
  if done self then _result self else VNone.

(** [BaseTask.run], for a class that does not override it. *)
Definition BaseTask_run : M task unit :=
  raise (Exn NotImplementedError
             "Attempted to call virtual method `run`, this method must be overridden").

Definition start (w : world) : M task task :=
  modify (set__done false) ;;;
  self <- get ;;
  run (classes w (_cls self)) ;;;
  modify (set__done true) ;;;
  get.

Definition to_dict (self : task) : value :=
  VDict [ ("name", VStr (_name self));
          ("path", _path self);
          ("completed", VBool (_done self));
          ("priority", _priority self);
          ("result", get_result self);
          ("next_tasks", VList (map VStr (get_next_tasks self))) ].

Definition to_json (self : task) : string := Json.dumps (to_dict self).

(** [*args]: the items of an iterable. *)
Definition unpack (args : value) : option (list value) :=
  match args with
  | VList l => Some l
  | VStr s => Some (map (fun c => VStr (String c "")) (list_ascii_of_string s))
  | VDict d => Some (map (fun kv => VStr (fst kv)) d)
  | _ => None
  end.

(** The steps of [from_dict] after the class lookup; the state is that
    of the instance under construction. *)
Definition restore (w : world) (d : list (string * value)) : M task task :=
  done_setter w (dict_get d "completed" (VBool false)) ;;;
  modify (set__result (dict_get d "result" VNone)) ;;;
  get.

Definition from_dict (E : env) (taskdict : value) : M world task :=
  match taskdict with
  | VDict d =>
      match dict_find "name" d with
      | None => raise (Exn KeyError "name")
      | Some name =>
          found <- find_tasks E name false ;;
          match found with
          | [] => raise (Exn IndexError "list index out of range")
          | cls :: _ =>
              match dict_find "path" d with
              | None => raise (Exn KeyError "path")
              | Some path =>
                  match unpack (dict_get d "args" (VList [])) with
                  | Some [] =>
                      w <- get ;;
                      let task :=
                        new w cls path
                            (dict_get d "priority" (VInt PRIO_NORMAL)) in
                      match restore w d task with
                      | (Ok task', _) => ret task'
                      | (Raise e, _) => raise e
                      end
                  | _ => raise (Exn TypeError "args")
                  end
              end
          end
      end
  | _ => raise (Exn TypeError "name")
  end.

(** ** Notions used by the statements *)

(** The pattern object that a class holds in its own namespace, if
    any, is the one its [MAGIC_PATTERN] compiles to. *)
Definition rx_coherent (k : class_attrs) : Prop :=
  match MAGIC_PATTERN k, _rx k with
  | Some pattern, Some (Some rx) => re_compile (foreign_rx k) pattern = Some rx
  | _, _ => True
  end.

(** [can_handle] returns a match object, or returns [None]. *)
Definition handles (w : world) (c : cid) (d : string) : Prop :=
  exists e, fst (can_handle c d w) = Ok (Some e).

Definition rejects (w : world) (c : cid) (d : string) : Prop :=
  fst (can_handle c d w) = Ok None.


(** The state after [can_handle] has been evaluated on the classes of
    [l], one after the other. *)
Definition evaluated (d : string) (l : list cid) (w : world) : world :=
  fold_left (fun w c => snd (can_handle c d w)) l w.

(** The loop of [find_tasks_by_filetype] asks each class in the state
    left by the calls on the classes before it.  [in_turn P d l w]:
    [P] holds of every class of [l] in the state in which the loop,
    started in [w], asks it. *)
Fixpoint in_turn (P : world -> cid -> Prop) (d : string) (l : list cid)
  (w : world) : Prop :=
  match l with
  | [] => True
  | c :: rest => P w c /\ in_turn P d rest (snd (can_handle c d w))
  end.


(** No task type derives from another: the ancestors of every class
    declare no pattern and hold no pattern object. *)
Definition flat (w : world) : Prop :=
  forall c a : cid,
    In a (ancestors (classes w c)) ->
    MAGIC_PATTERN (classes w a) = None
    /\ forall rx : Pattern, _rx (classes w a) <> Some (Some rx).

(** A sequence of calls of [add_next_task]. *)
Fixpoint add_next_tasks (items : list value) : M task unit :=
  match items with
  | [] => ret tt
  | jsondata :: rest => add_next_task jsondata ;;; add_next_tasks rest
  end.

(** A work routine that never assigns the completion flag. *)
Definition keeps_done (work : M task unit) : Prop :=
  forall self, _done (snd (work self)) = _done self.

(** The names that the scan looks at: those not starting with [__]. *)
Definition visible {A : Type} (l : list (string * A)) : list (string * A) :=
  filter (fun binding => negb (dunder (fst binding))) l.

(** The universe of available concrete task types: every visible
    binding of a visible module to a class that passes the three tests,
    with the identifier it is bound to, in scan order. *)
Definition universe (w : world) (E : env) : list (string * cid) :=
  flat_map
    (fun m =>
       flat_map
         (fun binding =>
            match is_task_class w (snd binding) with
            | Some c => [(fst binding, c)]
            | None => []
            end)
         (visible (snd m)))
    (visible (tasks_package E)).

(** The types of the universe whose identifier is [X]. *)
Definition named (X : string) (u : list (string * cid)) : list (string * cid) :=
  filter (fun binding => String.eqb (fst binding) X) u.

(** A call of [find_tasks] scans unless caching is enabled, no rebuild
    is asked for and the cache is populated. *)
Definition scans (E : env) (rebuild_cache : bool) (w : world) : Prop :=
  ENABLE_TASKS_CACHE E && negb rebuild_cache = false
  \/ _tasks_cache w = None.

(** [w'] may be a later state of [w]: the cache and what the classes
    declare are the same, and the entry [_rx] of a class is as in [w]
    or holds a pattern object. *)
Definition later (w w' : world) : Prop :=
  _tasks_cache w' = _tasks_cache w
  /\ forall c : cid,
      ancestors (classes w' c) = ancestors (classes w c)
      /\ MAGIC_PATTERN (classes w' c) = MAGIC_PATTERN (classes w c)
      /\ foreign_rx (classes w' c) = foreign_rx (classes w c)
      /\ (_rx (classes w' c) = _rx (classes w c)
          \/ exists rx : Pattern, _rx (classes w' c) = Some (Some rx)).

(** Two states with the same view: the same cache, and for every
    class the same name, the same answers to the class tests and the
    same verdicts of [can_handle].  When no task type derives from
    another, no call of the module can tell them apart. *)
Definition same_view (w w' : world) : Prop :=
  _tasks_cache w' = _tasks_cache w
  /\ forall c : cid,
      __name__ (classes w' c) = __name__ (classes w c)
      /\ plain_type (classes w' c) = plain_type (classes w c)
      /\ derives_BaseTask (classes w' c) = derives_BaseTask (classes w c)
      /\ forall d : string, fst (can_handle c d w') = fst (can_handle c d w).

(** [BaseTask.from_json]: [from_dict] on what [json.loads] returns;
    [None] when [json.loads] returns no value (see [Loads.loads]). *)
Definition from_json (E : env) (taskjson : string) : option (M world task) :=
  option_map (from_dict E) (Loads.loads taskjson).

End Basetask.

(* ================================================================== *)
(** * Sample task types *)
(* ================================================================== *)

Module Samples.

Import Basetask.

(** A work routine that stores a digest and returns. *)
Definition digest_run : M task unit :=
  modify (set__result (VStr "d41d8cd98f00b204e9800998ecf8427e")).

(** A task type that derives from [BaseTask] directly. *)
Definition concrete (name : string) (pattern : option string)
  (work : M task unit) : class_attrs :=
  mkClass name true true [BaseTask] pattern None None None work.

Definition BaseTask_attrs : class_attrs :=
  mkClass "BaseTask" true true [] None None (Some None) None BaseTask_run.

Definition Hasher : class_attrs :=
  concrete "Hasher" (Some "^application/octet-stream$") digest_run.

Definition Image : class_attrs :=
  concrete "Image" (Some "image/.*") digest_run.

Definition Jpeg : class_attrs :=
  concrete "Jpeg" (Some "^image/jpeg$") digest_run.

Definition Bare : class_attrs :=
  concrete "Bare" None digest_run.

(** A work routine that marks the task completed, as the note in
    [BaseTask.run] asks, and fails afterwards. *)
Definition flaky_run : M task unit :=
  (modify (set__done true) ;;; raise (Exn Exception "disk error"))%py.

(** A class that has nothing to do with tasks. *)
Definition Unrelated : class_attrs :=
  mkClass "Logger" true false [] None None None None BaseTask_run.

(** Class object 0 is [BaseTask]; 1 to 7 are task types, 5 being a
    second class called [Hasher] and 7 one that inherits [run]. *)
Definition sample_classes (c : cid) : class_attrs :=
  match c with
  | 0 => BaseTask_attrs
  | 1 => Hasher
  | 2 => Image
  | 3 => Jpeg
  | 4 => Bare
  | 5 => concrete "Hasher" (Some "^application/x-hash$") digest_run
  | 6 => concrete "Flaky" (Some "text/.*") flaky_run
  | 7 => concrete "Stub" (Some "text/plain") BaseTask_run
  | _ => Unrelated
  end.

Definition w0 : world := mkWorld None sample_classes.

(** Two states of the package [forework.tasks]: one module, then a
    second one added; caching is enabled in both. *)
Definition hasher_module : string * list (string * pyobj) :=
  ("hasher", [("BaseTask", OClass BaseTask); ("Hasher", OClass 1);
              ("__doc__", OOther); ("utils", OOther)]).

Definition image_module : string * list (string * pyobj) :=
  ("image", [("BaseTask", OClass BaseTask); ("Image", OClass 2)]).

Definition E1 : env := mkEnv true [("__name__", []); hasher_module].

Definition E2 : env :=
  mkEnv true [("__name__", []); hasher_module; image_module].

(** A package whose last type declares no pattern. *)
Definition E4 : env :=
  mkEnv false [hasher_module; image_module; ("raw", [("Bare", OClass 4)])].

(** A package in which two modules define a class called [Hasher]. *)
Definition E3 : env :=
  mkEnv false [hasher_module; ("hasher2", [("Hasher", OClass 5)])].

(** A completed task, and its serialized forms. *)
Definition hashed : task :=
  mkTask 1 "Hasher" (VStr "/tmp/f") true (VStr "d41d8cd9") (VInt 0)
         [VDict [("name", VStr "Image")]].

Definition follow_up : value := to_dict (new w0 2 (VStr "/tmp/g") (VInt 10)).


Definition payload_short : list (string * value) :=
  [("name", VStr "Hasher"); ("path", VStr "/tmp/f")].


(** A state in which the cache holds two types. *)
Definition w_cached : world := mkWorld (Some [1; 2]) sample_classes.

(** A task type that derives from another one:
    [class Photo(Image): MAGIC_PATTERN = '^image/jpeg$'], as class
    object 8, and a package that lists it after its parent. *)
Definition Photo : class_attrs :=
  mkClass "Photo" true true [2; BaseTask] (Some "^image/jpeg$") None None None
          digest_run.

Definition w_derived : world :=
  mkWorld None (fun c => if Nat.eqb c 8 then Photo else sample_classes c).

Definition E5 : env :=
  mkEnv false [image_module; ("photo", [("Photo", OClass 8);
                                        ("image", OOther)])].

End Samples.

(* ================================================================== *)
(** * Facts about the pattern matcher *)
(* ================================================================== *)

Section ReFacts.

Import Re.

Lemma rmatch_length (r : regex) (x y : pos) :
  rmatch r x y ->
  List.length (snd y) <= List.length (snd x)
  /\ (List.length (snd y) = List.length (snd x) -> y = x).
Proof.
  induction 1; simpl in *.
  - split; [lia | reflexivity].
  - split; [lia | intros; lia].
  - split; [lia | intros; lia].
  - split; [lia | reflexivity].
  - split; [lia | reflexivity].
  - destruct IHrmatch1 as [L1 E1], IHrmatch2 as [L2 E2].
    split; [lia |].
    intros E. rewrite <- (E1 ltac:(lia)). apply E2. lia.
  - exact IHrmatch.
  - exact IHrmatch.
  - split; [lia | reflexivity].
  - destruct IHrmatch1 as [L1 E1], IHrmatch2 as [L2 E2].
    split; [lia |].
    intros E. rewrite <- (E1 ltac:(lia)). apply E2. lia.
Qed.

(** A match consumes a prefix of what is left. *)
Lemma rmatch_suffix (r : regex) (x y : pos) :
  rmatch r x y -> exists p, snd x = p ++ snd y.
Proof.
  induction 1; simpl;
    try (exists []; reflexivity);
    try (exists [c]; reflexivity);
    try assumption.
  - destruct IHrmatch1 as [p1 E1], IHrmatch2 as [p2 E2].
    exists (p1 ++ p2). rewrite E1, E2. now rewrite app_assoc.
  - destruct IHrmatch1 as [p1 E1], IHrmatch2 as [p2 E2].
    exists (p1 ++ p2). rewrite E1, E2. now rewrite app_assoc.
Qed.

Lemma repeat_sound (r : regex) :
  (forall x y, In y (ends r x) -> rmatch r x y) ->
  forall n x z, In z (repeat (ends r) n x) -> rmatch (Star r) x z.
Proof.
  intros IH n. induction n as [| n IHn]; intros x z Hin; simpl in Hin.
  - destruct Hin as [<- | []]. constructor.
  - apply in_app_or in Hin. destruct Hin as [Hin | [<- | []]].
    + apply in_flat_map in Hin. destruct Hin as (y & Hy & Hz).
      apply filter_In in Hy. destruct Hy as [Hy _].
      eapply MStarS; [apply IH; exact Hy | apply IHn; exact Hz].
    + constructor.
Qed.

Lemma ends_sound (r : regex) :
  forall x y, In y (ends r x) -> rmatch r x y.
Proof.
  induction r; intros [b s] y Hin; simpl in Hin.
  - destruct Hin as [<- | []]. constructor.
  - destruct s as [| a s]; [contradiction |].
    destruct (Ascii.eqb a c) eqn:E; [| contradiction].
    apply Ascii.eqb_eq in E. subst a.
    destruct Hin as [<- | []]. constructor.
  - destruct s as [| a s]; [contradiction |].
    destruct (Ascii.eqb a newline) eqn:E; [contradiction |].
    apply Ascii.eqb_neq in E.
    destruct Hin as [<- | []]. now constructor.
  - destruct b; [| contradiction].
    destruct Hin as [<- | []]. constructor.
  - destruct s as [| a [| a' s]].
    + destruct Hin as [<- | []]. constructor. now left.
    + destruct (Ascii.eqb a newline) eqn:E; [| contradiction].
      apply Ascii.eqb_eq in E. subst a.
      destruct Hin as [<- | []]. constructor. now right.
    + contradiction.
  - apply in_flat_map in Hin. destruct Hin as (m & Hm & Hy).
    eapply MCat; [apply IHr1; exact Hm | apply IHr2; exact Hy].
  - apply in_app_or in Hin. destruct Hin as [Hin | Hin].
    + apply MAltL. now apply IHr1.
    + apply MAltR. now apply IHr2.
  - eapply repeat_sound; [exact IHr | exact Hin].
Qed.

Lemma repeat_here (body : pos -> list pos) (n : nat) (x : pos) :
  In x (repeat body n x).
Proof.
  destruct n; simpl; [now left |].
  apply in_or_app. right. now left.
Qed.

Lemma repeat_complete (r : regex) :
  (forall x y, rmatch r x y -> In y (ends r x)) ->
  forall x z, rmatch (Star r) x z ->
  forall n, List.length (snd x) <= n -> In z (repeat (ends r) n x).
Proof.
  intros IH x z H.
  remember (Star r) as sr eqn:Esr.
  induction H; try discriminate; injection Esr as ->; intros n Hn.
  - apply repeat_here.
  - destruct (rmatch_length H) as [Hle Heq].
    destruct (Nat.eq_dec (List.length (snd y)) (List.length (snd x)))
      as [E | NE].
    + specialize (Heq E). subst y. apply IHrmatch2; [reflexivity | exact Hn].
    + destruct n as [| n]; [lia |]. simpl.
      apply in_or_app. left. apply in_flat_map.
      exists y. split.
      * apply filter_In. split; [now apply IH |].
        unfold shorter. apply Nat.ltb_lt. lia.
      * apply IHrmatch2; [reflexivity | lia].
Qed.

Lemma ends_complete (r : regex) :
  forall x y, rmatch r x y -> In y (ends r x).
Proof.
  induction r; intros x y H.
  - inversion H; subst. now left.
  - inversion H; subst. simpl. rewrite Ascii.eqb_refl. now left.
  - inversion H; subst. simpl.
    destruct (Ascii.eqb c newline) eqn:E.
    + apply Ascii.eqb_eq in E. contradiction.
    + now left.
  - inversion H; subst. now left.
  - inversion H; subst. simpl.
    destruct H0 as [-> | ->]; simpl; now left.
  - inversion H; subst. simpl. apply in_flat_map.
    exists y0. split; [now apply IHr1 | now apply IHr2].
  - inversion H; subst; simpl; apply in_or_app.
    + left. now apply IHr1.
    + right. now apply IHr2.
  - simpl. eapply repeat_complete; [exact IHr | exact H | reflexivity].
Qed.

(** [Pattern.match] finds a match exactly when the pattern matches a
    prefix of the subject. *)
Lemma re_match_prefix (r : regex) (s : string) :
  (exists e, re_match r s = Some e) <-> matches_prefix r s.
Proof.
  unfold re_match, matches_prefix. split.
  - intros [e He].
    destruct (ends r (true, list_ascii_of_string s)) as [| [b q] l] eqn:E;
      [discriminate |].
    assert (Hm : rmatch r (true, list_ascii_of_string s) (b, q)).
    { apply ends_sound. rewrite E. now left. }
    destruct (rmatch_suffix Hm) as [p Hp]. simpl in Hp.
    exists p, q, b. split; [exact Hp |]. rewrite <- Hp. exact Hm.
  - intros (p & q & b & Hs & Hm). rewrite <- Hs in Hm.
    apply ends_complete in Hm.
    destruct (ends r (true, list_ascii_of_string s)) as [| y l];
      [contradiction | eexists; reflexivity].
Qed.

Lemma re_match_none (r : regex) (s : string) :
  re_match r s = None <-> ~ matches_prefix r s.
Proof.
  rewrite <- re_match_prefix. split.
  - intros -> [e He]. discriminate.
  - intros H. destruct (re_match r s) as [e |]; [| reflexivity].
    exfalso. apply H. now exists e.
Qed.

End ReFacts.

(* ================================================================== *)
(** * The capability check *)
(* ================================================================== *)

Section CanHandle.

Import Re Basetask.

(** With a declared pattern that compiles, and when reading [_rx]
    finds [None] or the pattern object of that pattern, the check is
    the anchored match of the compiled pattern. *)
Lemma can_handle_declared (w : world) (c : cid) (pattern : string)
  (rx : Pattern) (d : string) :
  MAGIC_PATTERN (classes w c) = Some pattern ->
  re_compile (foreign_rx (classes w c)) pattern = Some rx ->
  get__rx w c = Some None \/ get__rx w c = Some (Some rx) ->
  fst (can_handle c d w) = Ok (Pattern_match rx d).
Proof.
  intros Hp Hc Hr.
  unfold can_handle, bind, get, ret, modify. cbn [fst snd]. rewrite Hp.
  destruct Hr as [-> | ->]; [rewrite Hc |]; reflexivity.
Qed.

(** A pattern of the fragment compiles to itself. *)
Lemma re_compile_parsed (foreign : option (string -> option nat))
  (pattern : string) (r : regex) :
  re_parse pattern = Parsed r ->
  re_compile foreign pattern = Some (Fragment r).
Proof. unfold re_compile. now intros ->. Qed.

End CanHandle.

(** C4. The code at the failing input: [Photo] derives from [Image]
    and declares the pattern [^image/jpeg$], which matches no prefix
    of [image/png] or of [image/jpeg; charset=x].  Asked first, [Photo]
    reports no match for [image/png].  Asked after [Image.can_handle]
    has run, it reads the pattern object that [Image] stored for
    [image/.*], and reports a match for both descriptors. *)
Theorem can_handle_inherited_pattern :
  Basetask.MAGIC_PATTERN (Basetask.classes Samples.w_derived 8)
  = Some "^image/jpeg$"
  /\ Basetask.ancestors (Basetask.classes Samples.w_derived 8)
     = [2; Basetask.BaseTask]
  /\ Basetask.MAGIC_PATTERN (Basetask.classes Samples.w_derived 2)
     = Some "image/.*"
  /\ (exists r : Re.regex,
        Re.re_parse "^image/jpeg$" = Re.Parsed r
        /\ ~ Re.matches_prefix r "image/png"
        /\ ~ Re.matches_prefix r "image/jpeg; charset=x")
  /\ fst (Basetask.can_handle 8 "image/png" Samples.w_derived) = Ok None
  /\ fst (Basetask.can_handle 8 "image/png"
            (snd (Basetask.can_handle 2 "image/gif" Samples.w_derived)))
     = Ok (Some 9)
  /\ fst (Basetask.can_handle 8 "image/jpeg; charset=x"
            (snd (Basetask.can_handle 2 "image/gif" Samples.w_derived)))
     = Ok (Some 21).
Proof.
  split; [reflexivity |]. split; [reflexivity |]. split; [reflexivity |].
  split; [| repeat split].
  eexists. split; [reflexivity |].
  split; apply re_match_none; reflexivity.
Qed.

(* ================================================================== *)
(** * Discovery *)
(* ================================================================== *)

Section Discovery.

Import Basetask.

Lemma scan_module_universe (w : world) (name : value)
  (module : list (string * pyobj)) :
  forall tasks,
    scan_module w name tasks module
    = tasks ++
      map snd
        (filter (fun binding => selected (fst binding) name)
           (flat_map
              (fun binding =>
                 match is_task_class w (snd binding) with
                 | Some c => [(fst binding, c)]
                 | None => []
                 end)
              (visible module))).
Proof.
  unfold scan_module, visible.
  induction (filter (fun binding => negb (dunder (fst binding))) module)
    as [| [classname cls] l IH]; intros tasks; simpl.
  - now rewrite app_nil_r.
  - rewrite IH. destruct (is_task_class w cls) as [c |] eqn:Ec; simpl.
    + destruct (selected classname name); simpl.
      * now rewrite <- app_assoc.
      * reflexivity.
    + now destruct (selected classname name).
Qed.

(** The scan returns the types of the universe that the name selects,
    in scan order. *)
Lemma scan_universe (w : world) (E : env) (name : value) :
  scan w E name
  = map snd (filter (fun binding => selected (fst binding) name)
               (universe w E)).
Proof.
  unfold scan, universe, visible.
  enough (G : forall (l : list (string * list (string * pyobj))) tasks,
             fold_left (fun tasks m => scan_module w name tasks (snd m)) l
               tasks
             = tasks ++
               map snd
                 (filter (fun binding => selected (fst binding) name)
                    (flat_map
                       (fun m =>
                          flat_map
                            (fun binding =>
                               match is_task_class w (snd binding) with
                               | Some c => [(fst binding, c)]
                               | None => []
                               end)
                            (visible (snd m))) l))).
  { apply G. }
  induction l as [| m l IH]; intros tasks; simpl.
  - now rewrite app_nil_r.
  - rewrite IH, scan_module_universe, filter_app, map_app.
    now rewrite <- app_assoc.
Qed.

Lemma scan_named (w : world) (E : env) (X : string) :
  scan w E (VStr X) = map snd (named X (universe w E)).
Proof. apply scan_universe. Qed.

(** [find_tasks] never writes the state. *)
Lemma find_tasks_state (E : env) (name : value) (rebuild_cache : bool)
  (w : world) :
  snd (find_tasks E name rebuild_cache w) = w.
Proof.
  unfold find_tasks, bind, get, ret, raise. simpl.
  destruct (if ENABLE_TASKS_CACHE E && negb rebuild_cache
            then _tasks_cache w else None); [reflexivity |].
  destruct name; try reflexivity;
    now destruct (List.length _ <=? 1)%nat.
Qed.

(** On the scanning path the result is the scan, checked when a name
    is given. *)
Lemma find_tasks_scanning (E : env) (X : string) (rebuild_cache : bool)
  (w : world) :
  scans E rebuild_cache w ->
  find_tasks E (VStr X) rebuild_cache w
  = (if (List.length (scan w E (VStr X)) <=? 1)%nat
     then Ok (scan w E (VStr X))
     else Raise (Exn AssertionError X), w).
Proof.
  intros Hs. unfold find_tasks, bind, get, ret, raise. simpl.
  assert (Hc : (if ENABLE_TASKS_CACHE E && negb rebuild_cache
                then _tasks_cache w else None) = None).
  { destruct Hs as [-> | ->]; [reflexivity |].
    now destruct (ENABLE_TASKS_CACHE E && negb rebuild_cache). }
  rewrite Hc. now destruct (List.length _ <=? 1)%nat.
Qed.

End Discovery.

(** C6. When discovery by name scans, two or more concrete task types
    of the universe bound to the identifier [X] make [find_tasks] fail
    its assertion, and none at all makes it return the empty list
    without raising. *)
Theorem find_tasks_name_assertion :
  forall (E : Basetask.env) (w : Basetask.world) (X : string)
         (rebuild_cache : bool),
    Basetask.scans E rebuild_cache w ->
    (2 <= List.length (Basetask.named X (Basetask.universe w E)) ->
     Basetask.find_tasks E (VStr X) rebuild_cache w
     = (Raise (Exn AssertionError X), w))
    /\ (List.length (Basetask.named X (Basetask.universe w E)) = 0 ->
        Basetask.find_tasks E (VStr X) rebuild_cache w = (Ok [], w)).
Proof.
  intros E w X rebuild_cache Hs.
  rewrite (find_tasks_scanning X Hs), scan_named, length_map.
  split; intros H.
  - destruct (Nat.leb_spec
                (List.length (Basetask.named X (Basetask.universe w E))) 1);
      [lia | reflexivity].
  - rewrite H. simpl.
    destruct (Basetask.named X (Basetask.universe w E));
      [reflexivity | discriminate].
Qed.

(** C9. With caching enabled, no rebuild asked for and the cache
    populated, [find_tasks] returns the whole cache whatever the name:
    the name filter is not applied on a cache hit. *)
Theorem find_tasks_cache_hit :
  forall (E : Basetask.env) (w : Basetask.world) (name : value)
         (cache : list Basetask.cid),
    Basetask.ENABLE_TASKS_CACHE E = true ->
    Basetask._tasks_cache w = Some cache ->
    Basetask.find_tasks E name false w = (Ok cache, w).
Proof.
  intros E w name cache He Hc.
  unfold Basetask.find_tasks, bind, get, ret. simpl.
  now rewrite He, Hc.
Qed.

Lemma find_tasks_name_assertion_witness :
  Basetask.find_tasks Samples.E3 (VStr "Hasher") false Samples.w0
  = (Raise (Exn AssertionError "Hasher"), Samples.w0).
Proof.
  apply (proj1 (@find_tasks_name_assertion Samples.E3 Samples.w0 "Hasher"
                  false (or_intror eq_refl))).
  vm_compute. lia.
Defined.

Lemma find_tasks_cache_hit_witness :
  Basetask.find_tasks Samples.E2 (VStr "Hasher") false Samples.w_cached
  = (Ok [1; 2], Samples.w_cached).
Proof.
  apply (@find_tasks_cache_hit Samples.E2 Samples.w_cached (VStr "Hasher")
           [1; 2]);
    reflexivity.
Defined.

(** C2. The code at the failing input: with caching enabled and the
    cache empty, a scanning call returns the scanned types and leaves
    [_tasks_cache] empty, as every call does; after a type is added the
    next call without rebuild scans again and finds it. *)
Theorem find_tasks_never_fills_cache :
  (forall (E : Basetask.env) (name : value) (rebuild_cache : bool)
          (w : Basetask.world),
      snd (Basetask.find_tasks E name rebuild_cache w) = w)
  /\ Basetask.ENABLE_TASKS_CACHE Samples.E1 = true
  /\ Basetask.find_tasks Samples.E1 VNone false Samples.w0
     = (Ok [1], Samples.w0)
  /\ Basetask.find_tasks Samples.E1 VNone true Samples.w0
     = (Ok [1], Samples.w0)
  /\ Basetask._tasks_cache Samples.w0 = None
  /\ Basetask.find_tasks Samples.E2 VNone false Samples.w0
     = (Ok [1; 2], Samples.w0).
Proof.
  split; [exact find_tasks_state |].
  repeat split.
Qed.

(** C7. The code at the failing input: on a type that leaves
    [MAGIC_PATTERN] undeclared, [can_handle] raises [AttributeError]
    for the attribute [_name], which the class does not have, while it
    builds the message of the intended error. *)
Theorem can_handle_undeclared_pattern :
  Basetask.MAGIC_PATTERN (Basetask.classes Samples.w0 4) = None
  /\ Basetask.can_handle 4 "image/jpeg" Samples.w0
     = (Raise (Exn AttributeError "_name"), Samples.w0).
Proof. split; reflexivity. Qed.

(** The same for every type without a class attribute [_name], and the
    intended error for a type that has one. *)
Lemma can_handle_undeclared (w : Basetask.world) (c : Basetask.cid)
  (d : string) :
  Basetask.MAGIC_PATTERN (Basetask.classes w c) = None ->
  Basetask.can_handle c d w
  = (Raise match Basetask._name_attr (Basetask.classes w c) with
           | None => Exn AttributeError "_name"
           | Some name =>
               Exn Exception
                   ("MAGIC_PATTERN must be defined by the task " ++ name)
           end, w).
Proof.
  intros H. unfold Basetask.can_handle, bind, get, raise. simpl.
  rewrite H. now destruct (Basetask._name_attr (Basetask.classes w c)).
Qed.

(* ================================================================== *)
(** * Serialization *)
(* ================================================================== *)

Section Serialization.

Import Basetask.

Lemma find_tasks_pair (E : env) (name : value) (rebuild_cache : bool)
  (w : world) (r : outcome (list cid)) :
  fst (find_tasks E name rebuild_cache w) = r ->
  find_tasks E name rebuild_cache w = (r, w).
Proof.
  intros <-. rewrite <- (find_tasks_state E name rebuild_cache w) at 3.
  now destruct (find_tasks E name rebuild_cache w).
Qed.

(** [from_dict] once the class is found, the path is present and there
    are no extra arguments. *)
Lemma from_dict_found (E : env) (w : world) (d : list (string * value))
  (name path : value) (c : cid) (rest : list cid) :
  dict_find "name" d = Some name ->
  fst (find_tasks E name false w) = Ok (c :: rest) ->
  dict_find "path" d = Some path ->
  unpack (dict_get d "args" (VList [])) = Some [] ->
  from_dict E (VDict d) w
  = (fst (restore w d
            (new w c path (dict_get d "priority" (VInt PRIO_NORMAL)))),
     w).
Proof.
  intros Hn Hf Hp Ha. apply find_tasks_pair in Hf.
  unfold from_dict. rewrite Hn. unfold bind at 1. rewrite Hf, Hp, Ha.
  unfold bind, get, ret, raise. simpl.
  now destruct (restore w d _) as [[t' | e] s'].
Qed.

End Serialization.

(** C1. For a completed task [t], when the registry finds exactly one
    type for the name of [t], [from_dict (to_dict t)] returns an
    instance with the path, completion flag, priority and result of
    [t], and with an empty [next_tasks] whatever [t] had queued. *)
Theorem from_dict_to_dict_roundtrip :
  forall (E : Basetask.env) (w : Basetask.world) (t : Basetask.task)
         (c : Basetask.cid),
    Basetask._done t = true ->
    fst (Basetask.find_tasks E (VStr (Basetask._name t)) false w) = Ok [c] ->
    exists t' : Basetask.task,
      Basetask.from_dict E (Basetask.to_dict t) w = (Ok t', w)
      /\ Basetask._path t' = Basetask._path t
      /\ Basetask._done t' = Basetask._done t
      /\ Basetask._priority t' = Basetask._priority t
      /\ Basetask._result t' = Basetask._result t
      /\ Basetask._next_tasks t' = []
      /\ Basetask._cls t' = c.
Proof.
  intros E w t c Hd Hf.
  unfold Basetask.to_dict.
  erewrite from_dict_found; [| reflexivity | exact Hf | reflexivity
                             | reflexivity].
  unfold Basetask.get_result, Basetask.done. rewrite Hd.
  eexists. split; [reflexivity |]. simpl. repeat split.
Qed.

Lemma from_dict_to_dict_roundtrip_witness :
  exists t' : Basetask.task,
    Basetask.from_dict Samples.E2 (Basetask.to_dict Samples.hashed)
      Samples.w0 = (Ok t', Samples.w0)
    /\ Basetask._path t' = Basetask._path Samples.hashed
    /\ Basetask._done t' = Basetask._done Samples.hashed
    /\ Basetask._priority t' = Basetask._priority Samples.hashed
    /\ Basetask._result t' = Basetask._result Samples.hashed
    /\ Basetask._next_tasks t' = []
    /\ Basetask._cls t' = 1.
Proof.
  apply (@from_dict_to_dict_roundtrip Samples.E2 Samples.w0 Samples.hashed 1);
    reflexivity.
Defined.




(* ================================================================== *)
(** * Lifecycle and follow-up tasks *)
(* ================================================================== *)

Section Lifecycle.

Import Basetask.

(** [start] in terms of what the work routine does on the reset
    instance. *)
Lemma start_run (w : world) (t : task) :
  start w t
  = match run (classes w (_cls t)) (set__done false t) with
    | (Ok _, t1) => (Ok (set__done true t1), set__done true t1)
    | (Raise e, t1) => (Raise e, t1)
    end.
Proof.
  unfold start, bind, modify, get. simpl.
  now destruct (run (classes w (_cls t)) (set__done false t)) as [[[] | e] t1].
Qed.

Lemma add_next_tasks_appends (items : list value) :
  forall t : task,
    add_next_tasks items t
    = (Ok tt, set__next_tasks (_next_tasks t ++ items) t).
Proof.
  induction items as [| v items IH]; intros t; simpl.
  - rewrite app_nil_r. now destruct t.
  - unfold bind, add_next_task, modify. rewrite IH. simpl.
    now rewrite <- app_assoc.
Qed.

Lemma dumps_str_head (s : string) :
  exists tl, Json.dumps (VStr s) = String Json.quote tl.
Proof. eexists. reflexivity. Qed.

Lemma dumps_dict_head (d : list (string * value)) :
  exists tl, Json.dumps (VDict d) = String "{" tl.
Proof. eexists. reflexivity. Qed.

End Lifecycle.

(** C3, as the code has it.  A fresh task is not completed and has no
    result.  [start] resets the completion flag and runs the work
    routine on the reset instance.  When the routine returns, [start]
    sets the flag and returns the instance, whose result is the one
    the routine stored.  When the routine raises, [start] raises the
    same exception and writes nothing more: the flag is the one the
    routine left, which is false when the routine never assigns it. *)
Theorem start_lifecycle :
  forall (w : Basetask.world) (t : Basetask.task) (r : outcome unit)
         (t1 : Basetask.task),
    Basetask.run (Basetask.classes w (Basetask._cls t))
      (Basetask.set__done false t) = (r, t1) ->
    (forall (c : Basetask.cid) (path priority : value),
        Basetask.done (Basetask.new w c path priority) = false
        /\ Basetask.get_result (Basetask.new w c path priority) = VNone)
    /\ Basetask._done (Basetask.set__done false t) = false
    /\ match r with
       | Ok _ =>
           Basetask.start w t
           = (Ok (Basetask.set__done true t1), Basetask.set__done true t1)
           /\ Basetask.done (snd (Basetask.start w t)) = true
           /\ Basetask.get_result (snd (Basetask.start w t))
              = Basetask._result t1
       | Raise e =>
           Basetask.start w t = (Raise e, t1)
           /\ (Basetask.keeps_done
                 (Basetask.run (Basetask.classes w (Basetask._cls t))) ->
               Basetask.done (snd (Basetask.start w t)) = false)
       end.
Proof.
  intros w t r t1 Hr. split; [| split].
  - intros c path priority. split; reflexivity.
  - reflexivity.
  - rewrite start_run, Hr. destruct r as [[] | e].
    + repeat split.
    + split; [reflexivity |]. intros Hk. simpl.
      specialize (Hk (Basetask.set__done false t)). rewrite Hr in Hk.
      exact Hk.
Qed.

Lemma start_lifecycle_witness :
  Basetask.start Samples.w0
    (Basetask.new Samples.w0 1 (VStr "/tmp/f") (VInt 0))
  = (Ok (Basetask.mkTask 1 "Hasher" (VStr "/tmp/f") true
           (VStr "d41d8cd98f00b204e9800998ecf8427e") (VInt 0) []),
     Basetask.mkTask 1 "Hasher" (VStr "/tmp/f") true
       (VStr "d41d8cd98f00b204e9800998ecf8427e") (VInt 0) [])
  /\ Basetask.done
       (snd (Basetask.start Samples.w0
               (Basetask.new Samples.w0 7 (VStr "/tmp/f") (VInt 0))))
     = false.
Proof.
  split.
  - apply (proj2 (proj2
             (@start_lifecycle Samples.w0
                (Basetask.new Samples.w0 1 (VStr "/tmp/f") (VInt 0))
                (Ok tt)
                (Basetask.mkTask 1 "Hasher" (VStr "/tmp/f") false
                   (VStr "d41d8cd98f00b204e9800998ecf8427e") (VInt 0) [])
                eq_refl))).
  - apply (proj2 (proj2 (proj2
             (@start_lifecycle Samples.w0
                (Basetask.new Samples.w0 7 (VStr "/tmp/f") (VInt 0))
                (Raise (Exn NotImplementedError
                          "Attempted to call virtual method `run`, this method must be overridden"))
                (Basetask.new Samples.w0 7 (VStr "/tmp/f") (VInt 0))
                eq_refl)))).
    intros self. reflexivity.
Defined.

(** C3 as stated fails: a work routine that marks the task completed
    and then raises leaves the task completed after the failing
    [start]. *)
Lemma start_failure_leaves_completed :
  fst (Basetask.start Samples.w0
         (Basetask.new Samples.w0 6 (VStr "/tmp/f") (VInt 0)))
  = Raise (Exn Exception "disk error")
  /\ Basetask.done
       (snd (Basetask.start Samples.w0
               (Basetask.new Samples.w0 6 (VStr "/tmp/f") (VInt 0))))
     = true.
Proof. split; reflexivity. Qed.

(** C8, as the code has it.  [get_next_tasks] returns one string per
    queued item, in the order added: the [json.dumps] encoding of the
    item as it was stored.  The encoding depends on the form of the
    item: a string is written as a quoted string literal and a dict as
    an object, so the two never coincide. *)
Theorem get_next_tasks_dumps_each :
  forall (t : Basetask.task) (items : list value),
    Basetask.get_next_tasks (snd (Basetask.add_next_tasks items t))
    = Basetask.get_next_tasks t ++ map Json.dumps items
    /\ (forall s : string, Json.dumps (VStr s) = Json.encode_str s)
    /\ (forall (d : list (string * value)) (s : string),
          Json.dumps (VDict d) <> Json.dumps (VStr s)).
Proof.
  intros t items. split; [| split].
  - rewrite add_next_tasks_appends. unfold Basetask.get_next_tasks. simpl.
    apply map_app.
  - reflexivity.
  - intros d s H.
    destruct (dumps_dict_head d) as [tl1 H1].
    destruct (dumps_str_head s) as [tl2 H2].
    rewrite H1, H2 in H. discriminate.
Qed.

(** C8 as stated fails: the same follow-up task queued as a dict and
    queued as its JSON text gives two different outputs. *)
Lemma get_next_tasks_depends_on_form :
  Basetask.get_next_tasks
    (snd (Basetask.add_next_task Samples.follow_up Samples.hashed))
  <> Basetask.get_next_tasks
       (snd (Basetask.add_next_task
               (VStr (Json.dumps Samples.follow_up)) Samples.hashed)).
Proof. vm_compute. discriminate. Qed.

(* ================================================================== *)
(** * Dispatch by capability *)
(* ================================================================== *)

Section Dispatch.

Import Re Basetask.

(** [can_handle] leaves the state alone, or stores the compiled
    pattern of the class it was called on in that class. *)
Lemma can_handle_step (c : cid) (d : string) (w : world) :
  snd (can_handle c d w) = w
  \/ exists pattern rx,
      MAGIC_PATTERN (classes w c) = Some pattern
      /\ get__rx w c = Some None
      /\ re_compile (foreign_rx (classes w c)) pattern = Some rx
      /\ snd (can_handle c d w) = set_class c (set__rx rx (classes w c)) w.
Proof.
  unfold can_handle, bind, get, ret, raise, modify. cbn [fst snd].
  destruct (MAGIC_PATTERN (classes w c)) as [pattern |] eqn:Ep.
  - destruct (get__rx w c) as [[rx |] |] eqn:Er; [now left | | now left].
    destruct (re_compile (foreign_rx (classes w c)) pattern) as [rx |] eqn:Ec;
      [| now left].
    right. now exists pattern, rx.
  - left. now destruct (_name_attr (classes w c)).
Qed.

Lemma name_stable (c c' : cid) (d : string) (w : world) :
  __name__ (classes (snd (can_handle c' d w)) c) = __name__ (classes w c).
Proof.
  destruct (can_handle_step c' d w) as [-> | (p & rx & Hp & Hr & Hc & ->)];
    [reflexivity |].
  simpl. now destruct (Nat.eqb_spec c c') as [-> | Hne].
Qed.

Lemma class_untouched (c c' : cid) (d : string) (w : world) :
  c' <> c -> classes (snd (can_handle c d w)) c' = classes w c'.
Proof.
  intros Hne.
  destruct (can_handle_step c d w) as [-> | (p & rx & Hp & Hr & Hc & ->)];
    [reflexivity |].
  simpl. now destruct (Nat.eqb_spec c' c).
Qed.

Lemma evaluated_cons (d : string) (a : cid) (l : list cid) (w : world) :
  evaluated d (a :: l) w = evaluated d l (snd (can_handle a d w)).
Proof. reflexivity. Qed.



Lemma can_handle_pair (c : cid) (d : string) (w : world) :
  can_handle c d w = (fst (can_handle c d w), snd (can_handle c d w)).
Proof. now destruct (can_handle c d w). Qed.

(** One turn of the loop. *)
Lemma suitable_cons (d : string) (first_only : bool) (a : cid)
  (l : list cid) (acc : list string) (w : world) :
  suitable d first_only (a :: l) acc w
  = match fst (can_handle a d w) with
    | Ok (Some _) =>
        if first_only
        then (Ok (Name (__name__ (classes w a))), snd (can_handle a d w))
        else suitable d first_only l (acc ++ [__name__ (classes w a)])
               (snd (can_handle a d w))
    | Ok None => suitable d first_only l acc (snd (can_handle a d w))
    | Raise e => (Raise e, snd (can_handle a d w))
    end.
Proof.
  cbn [suitable]. unfold bind at 1.
  rewrite <- (name_stable a a d w).
  destruct (can_handle a d w) as [[[e |] | e] w1]; cbn [fst snd];
    [| reflexivity | reflexivity].
  unfold bind, get, ret. now destruct first_only.
Qed.





Lemma find_tasks_by_filetype_loop (E : env) (d : string) (first_only : bool)
  (w : world) (l : list cid) :
  fst (find_tasks E VNone false w) = Ok l ->
  find_tasks_by_filetype E d first_only w = suitable d first_only l [] w.
Proof.
  intros H. apply find_tasks_pair in H.
  unfold find_tasks_by_filetype, bind. now rewrite H.
Qed.

End Dispatch.



(* ================================================================== *)
(** * Sample runs *)
(* ================================================================== *)

Example dumps_list :
  Json.dumps (VList [VInt (-10); VBool true; VNone; VList []])
  = "[-10, true, null, []]".
Proof. reflexivity. Qed.

Example dumps_str_escapes :
  Json.dumps (VStr (String Json.quote "a"))
  = String Json.quote
      (String Json.backslash (String Json.quote (String "a" (String Json.quote "")))).
Proof. reflexivity. Qed.

Example hasher_dispatch :
  fst (Basetask.find_tasks_by_filetype Samples.E2 "application/octet-stream"
         true Samples.w0)
  = Ok (Basetask.Name "Hasher").
Proof. reflexivity. Qed.

Example hasher_run :
  Basetask.get_result
    (snd (Basetask.start Samples.w0
            (Basetask.new Samples.w0 1 (VStr "/tmp/f")
               (VInt Basetask.PRIO_NORMAL))))
  = VStr "d41d8cd98f00b204e9800998ecf8427e".
Proof. reflexivity. Qed.

Example anchored_at_start :
  Re.reading_map (fun r => Re.re_match r "image/jpeg") (Re.re_parse "jpeg")
  = Re.Parsed None.
Proof. reflexivity. Qed.

Example nothing_to_repeat : Re.re_parse "^*" = Re.Malformed.
Proof. reflexivity. Qed.

Example multiple_repeat : Re.re_parse "a**" = Re.Malformed.
Proof. reflexivity. Qed.

Example lazy_repetition : Re.re_parse "a*?" = Re.Unmodelled.
Proof. reflexivity. Qed.

Example alternation : Re.re_parse "image/(png|gif)" = Re.Unmodelled.
Proof. reflexivity. Qed.

(** A type that derives from another task type: asked after its
    parent, [Photo] answers with the pattern of [Image]; asked alone,
    with its own. *)
Example derived_dispatch :
  fst (Basetask.find_tasks_by_filetype Samples.E5 "image/png" false
         Samples.w_derived)
  = Ok (Basetask.Names ["Image"; "Photo"])
  /\ fst (Basetask.suitable "image/png" false [8] [] Samples.w_derived)
     = Ok (Basetask.Names []).
Proof. split; reflexivity. Qed.

(* ================================================================== *)
(** * More about discovery *)
(* ================================================================== *)

Section DiscoveryMore.

Import Basetask.

Lemma is_task_class_tests (w : world) (o : pyobj) (c : cid) :
  is_task_class w o = Some c
  <-> o = OClass c
      /\ plain_type (classes w c) = true
      /\ c <> BaseTask
      /\ derives_BaseTask (classes w c) = true.
Proof.
  unfold is_task_class. destruct o as [c' |]; [| split; [discriminate |]].
  - destruct (plain_type (classes w c')) eqn:Hp;
      destruct (Nat.eqb_spec c' BaseTask) as [He | He];
      destruct (derives_BaseTask (classes w c')) eqn:Hd; simpl;
      (split;
       [ intros H; try discriminate; injection H as <-; now repeat split
       | intros (Ho & H1 & H2 & H3); injection Ho as <-;
         try reflexivity; try congruence ]).
  - intros (H & _). discriminate.
Qed.

(** The universe, binding by binding. *)
Lemma universe_In (w : world) (E : env) (n : string) (c : cid) :
  In (n, c) (universe w E)
  <-> exists m ns,
      In (m, ns) (tasks_package E)
      /\ dunder m = false
      /\ In (n, OClass c) ns
      /\ dunder n = false
      /\ plain_type (classes w c) = true
      /\ c <> BaseTask
      /\ derives_BaseTask (classes w c) = true.
Proof.
  unfold universe, visible. rewrite in_flat_map. split.
  - intros ([m ns] & Hm & Hin). apply filter_In in Hm. destruct Hm as [Hm Hdm].
    apply in_flat_map in Hin. destruct Hin as ([n' o] & Hb & Hin).
    apply filter_In in Hb. destruct Hb as [Hb Hdn]. simpl in *.
    destruct (is_task_class w o) as [c' |] eqn:Ec; [| contradiction].
    destruct Hin as [Hin | []]. injection Hin as -> ->.
    apply is_task_class_tests in Ec. destruct Ec as (-> & H1 & H2 & H3).
    exists m, ns. repeat split; try assumption.
    + now apply negb_true_iff.
    + now apply negb_true_iff.
  - intros (m & ns & Hm & Hdm & Hb & Hdn & H1 & H2 & H3).
    exists (m, ns). split.
    + apply filter_In. split; [exact Hm |]. simpl. now rewrite Hdm.
    + apply in_flat_map. exists (n, OClass c). split.
      * apply filter_In. split; [exact Hb |]. simpl. now rewrite Hdn.
      * assert (Ec : is_task_class w (OClass c) = Some c).
        { apply is_task_class_tests. now repeat split. }
        cbn [fst snd]. rewrite Ec. now left.
Qed.

Lemma scan_all (w : world) (E : env) :
  scan w E VNone = map snd (universe w E).
Proof.
  rewrite scan_universe. f_equal.
  induction (universe w E) as [| b u IH]; simpl; [reflexivity |].
  f_equal. exact IH.
Qed.

Lemma find_tasks_scanning_all (E : env) (rebuild_cache : bool) (w : world) :
  scans E rebuild_cache w ->
  find_tasks E VNone rebuild_cache w = (Ok (scan w E VNone), w).
Proof.
  intros Hs. unfold find_tasks, bind, get, ret. simpl.
  assert (Hc : (if ENABLE_TASKS_CACHE E && negb rebuild_cache
                then _tasks_cache w else None) = None).
  { destruct Hs as [-> | ->]; [reflexivity |].
    now destruct (ENABLE_TASKS_CACHE E && negb rebuild_cache). }
  now rewrite Hc.
Qed.

Lemma named_In (X n : string) (c : cid) (u : list (string * cid)) :
  In (n, c) (named X u) <-> n = X /\ In (n, c) u.
Proof.
  unfold named. rewrite filter_In. simpl. rewrite String.eqb_eq. tauto.
Qed.

End DiscoveryMore.

(** X1. A scanning discovery without a name returns exactly the
    classes bound, under a name not starting with [__] in a module
    whose name does not start with [__], to a plain class that derives
    from [BaseTask] and is not [BaseTask] itself; it leaves the state
    as it was. *)
Theorem find_tasks_discovers :
  forall (E : Basetask.env) (w : Basetask.world) (rebuild_cache : bool),
    Basetask.scans E rebuild_cache w ->
    exists l : list Basetask.cid,
      Basetask.find_tasks E VNone rebuild_cache w = (Ok l, w)
      /\ forall c : Basetask.cid,
          In c l
          <-> exists m ns n,
              In (m, ns) (Basetask.tasks_package E)
              /\ Basetask.dunder m = false
              /\ In (n, Basetask.OClass c) ns
              /\ Basetask.dunder n = false
              /\ Basetask.plain_type (Basetask.classes w c) = true
              /\ c <> Basetask.BaseTask
              /\ Basetask.derives_BaseTask (Basetask.classes w c) = true.
Proof.
  intros E w rebuild_cache Hs.
  exists (map snd (Basetask.universe w E)). split.
  - rewrite (find_tasks_scanning_all Hs). now rewrite scan_all.
  - intros c. rewrite in_map_iff. split.
    + intros ([n c'] & Hc & Hin). simpl in Hc. subst c'.
      apply universe_In in Hin.
      destruct Hin as (m & ns & H). now exists m, ns, n.
    + intros (m & ns & n & H). exists (n, c). split; [reflexivity |].
      apply universe_In. now exists m, ns.
Qed.

Lemma find_tasks_discovers_witness :
  exists l : list Basetask.cid,
    Basetask.find_tasks Samples.E2 VNone true Samples.w_cached
    = (Ok l, Samples.w_cached)
    /\ forall c : Basetask.cid,
        In c l
        <-> exists m ns n,
            In (m, ns) (Basetask.tasks_package Samples.E2)
            /\ Basetask.dunder m = false
            /\ In (n, Basetask.OClass c) ns
            /\ Basetask.dunder n = false
            /\ Basetask.plain_type (Basetask.classes Samples.w_cached c) = true
            /\ c <> Basetask.BaseTask
            /\ Basetask.derives_BaseTask (Basetask.classes Samples.w_cached c)
               = true.
Proof.
  apply (@find_tasks_discovers Samples.E2 Samples.w_cached true).
  left. reflexivity.
Defined.

(** X2. A scanning discovery by name returns at most one class, and a
    class it returns is a plain class derived from [BaseTask], other
    than [BaseTask], bound to exactly that name in a visible module. *)
Theorem find_tasks_named_sound :
  forall (E : Basetask.env) (w : Basetask.world) (X : string)
         (rebuild_cache : bool) (l : list Basetask.cid),
    Basetask.scans E rebuild_cache w ->
    fst (Basetask.find_tasks E (VStr X) rebuild_cache w) = Ok l ->
    List.length l <= 1
    /\ forall c : Basetask.cid,
        In c l ->
        exists m ns,
          In (m, ns) (Basetask.tasks_package E)
          /\ Basetask.dunder m = false
          /\ In (X, Basetask.OClass c) ns
          /\ Basetask.dunder X = false
          /\ Basetask.plain_type (Basetask.classes w c) = true
          /\ c <> Basetask.BaseTask
          /\ Basetask.derives_BaseTask (Basetask.classes w c) = true.
Proof.
  intros E w X rebuild_cache l Hs Hl.
  rewrite (find_tasks_scanning X Hs) in Hl. simpl in Hl.
  destruct (Nat.leb_spec (List.length (Basetask.scan w E (VStr X))) 1)
    as [Hle | Hgt]; [| discriminate].
  injection Hl as <-. split; [exact Hle |].
  intros c Hc. rewrite scan_named in Hc. apply in_map_iff in Hc.
  destruct Hc as ([n c'] & Hc & Hin). simpl in Hc. subst c'.
  apply named_In in Hin. destruct Hin as [-> Hin].
  now apply universe_In in Hin.
Qed.

Lemma find_tasks_named_sound_witness :
  List.length [1] <= 1
  /\ forall c : Basetask.cid,
      In c [1] ->
      exists m ns,
        In (m, ns) (Basetask.tasks_package Samples.E2)
        /\ Basetask.dunder m = false
        /\ In ("Hasher", Basetask.OClass c) ns
        /\ Basetask.dunder "Hasher" = false
        /\ Basetask.plain_type (Basetask.classes Samples.w0 c) = true
        /\ c <> Basetask.BaseTask
        /\ Basetask.derives_BaseTask (Basetask.classes Samples.w0 c) = true.
Proof.
  apply (@find_tasks_named_sound Samples.E2 Samples.w0 "Hasher" false [1]).
  - right. reflexivity.
  - reflexivity.
Defined.

(** X3. When exactly one concrete type of the universe is bound to the
    name, a scanning discovery by name returns that type alone. *)
Theorem find_tasks_named_unique :
  forall (E : Basetask.env) (w : Basetask.world) (X n : string)
         (c : Basetask.cid) (rebuild_cache : bool),
    Basetask.scans E rebuild_cache w ->
    Basetask.named X (Basetask.universe w E) = [(n, c)] ->
    Basetask.find_tasks E (VStr X) rebuild_cache w = (Ok [c], w).
Proof.
  intros E w X n c rebuild_cache Hs Hu.
  rewrite (find_tasks_scanning X Hs), scan_named, Hu. reflexivity.
Qed.

Lemma find_tasks_named_unique_witness :
  Basetask.find_tasks Samples.E2 (VStr "Image") false Samples.w0
  = (Ok [2], Samples.w0).
Proof.
  apply (@find_tasks_named_unique Samples.E2 Samples.w0 "Image" "Image" 2
           false).
  - right. reflexivity.
  - reflexivity.
Defined.

(** X4. With a rebuild asked for, or with caching disabled, the result
    of discovery does not depend on what the cache holds. *)
Theorem find_tasks_ignores_cache :
  forall (E : Basetask.env) (name : value) (rebuild_cache : bool)
         (K : Basetask.cid -> Basetask.class_attrs)
         (cache1 cache2 : option (list Basetask.cid)),
    rebuild_cache = true \/ Basetask.ENABLE_TASKS_CACHE E = false ->
    fst (Basetask.find_tasks E name rebuild_cache (Basetask.mkWorld cache1 K))
    = fst (Basetask.find_tasks E name rebuild_cache
             (Basetask.mkWorld cache2 K)).
Proof.
  intros E name rebuild_cache K cache1 cache2 H.
  assert (Hc : Basetask.ENABLE_TASKS_CACHE E && negb rebuild_cache = false).
  { destruct H as [-> | ->]; [apply andb_false_r | reflexivity]. }
  assert (Hs : forall cache,
             Basetask.scan (Basetask.mkWorld cache K) E name
             = Basetask.scan (Basetask.mkWorld None K) E name)
    by reflexivity.
  unfold Basetask.find_tasks, bind, get, ret, raise. simpl.
  rewrite Hc, (Hs cache1), (Hs cache2).
  destruct name; try reflexivity;
    now destruct (List.length _ <=? 1)%nat.
Qed.

Lemma find_tasks_ignores_cache_witness :
  fst (Basetask.find_tasks Samples.E2 VNone true
         (Basetask.mkWorld (Some [4]) Samples.sample_classes))
  = fst (Basetask.find_tasks Samples.E2 VNone true
           (Basetask.mkWorld None Samples.sample_classes)).
Proof.
  apply (@find_tasks_ignores_cache Samples.E2 VNone true
           Samples.sample_classes (Some [4]) None).
  left. reflexivity.
Defined.

(** X5. A scanning discovery finds nothing, and does not raise, for a
    name that starts with [__] and for a name that is neither [None]
    nor a string. *)
Theorem find_tasks_hidden_names :
  forall (E : Basetask.env) (w : Basetask.world) (name : value)
         (rebuild_cache : bool),
    Basetask.scans E rebuild_cache w ->
    name <> VNone ->
    (forall X : string, name = VStr X -> Basetask.dunder X = true) ->
    Basetask.find_tasks E name rebuild_cache w = (Ok [], w).
Proof.
  intros E w name rebuild_cache Hs Hn Hd.
  assert (Hsc : Basetask.scan w E name = []).
  { rewrite scan_universe.
    destruct (filter _ (Basetask.universe w E)) as [| [n c] u] eqn:Ef;
      [reflexivity | exfalso].
    assert (Hin : In (n, c)
                    (filter (fun binding => Basetask.selected (fst binding) name)
                       (Basetask.universe w E))).
    { rewrite Ef. now left. }
    apply filter_In in Hin. destruct Hin as [Hin Hsel]. simpl in Hsel.
    apply universe_In in Hin.
    destruct Hin as (m & ns & _ & _ & _ & Hdn & _).
    destruct name as [| b | z | s | l' | d]; try discriminate;
      [now apply Hn |].
    apply String.eqb_eq in Hsel. subst s.
    rewrite (Hd n eq_refl) in Hdn. discriminate. }
  unfold Basetask.find_tasks, bind, get, ret, raise. simpl.
  assert (Hc : (if Basetask.ENABLE_TASKS_CACHE E && negb rebuild_cache
                then Basetask._tasks_cache w else None) = None).
  { destruct Hs as [-> | ->]; [reflexivity |].
    now destruct (Basetask.ENABLE_TASKS_CACHE E && negb rebuild_cache). }
  rewrite Hc, Hsc. now destruct name.
Qed.

Lemma find_tasks_hidden_names_witness :
  Basetask.find_tasks Samples.E2 (VStr "__doc__") false Samples.w0
  = (Ok [], Samples.w0)
  /\ Basetask.find_tasks Samples.E2 (VInt 7) false Samples.w0
     = (Ok [], Samples.w0).
Proof.
  split.
  - apply (@find_tasks_hidden_names Samples.E2 Samples.w0 (VStr "__doc__")
             false).
    + right. reflexivity.
    + discriminate.
    + intros X H. injection H as <-. reflexivity.
  - apply (@find_tasks_hidden_names Samples.E2 Samples.w0 (VInt 7) false).
    + right. reflexivity.
    + discriminate.
    + intros X H. discriminate.
Defined.

(* ================================================================== *)
(** * More about the capability check *)
(* ================================================================== *)

Section CanHandleMore.

Import Re Basetask.


Lemma coherence_step (c0 c : cid) (d : string) (w : world) :
  rx_coherent (classes w c) ->
  rx_coherent (classes (snd (can_handle c0 d w)) c).
Proof.
  intros H.
  destruct (can_handle_step c0 d w) as [-> | (p & rx & Hp & Hr & Hc & ->)];
    [exact H |].
  simpl. destruct (Nat.eqb_spec c c0) as [-> | Hne]; [| exact H].
  unfold rx_coherent. simpl. now rewrite Hp.
Qed.

(** What a class declares is not written by [can_handle]. *)
Lemma pattern_stable (c c' : cid) (d : string) (w : world) :
  MAGIC_PATTERN (classes (snd (can_handle c' d w)) c)
  = MAGIC_PATTERN (classes w c).
Proof.
  destruct (can_handle_step c' d w) as [-> | (p & rx & Hp & Hr & Hc & ->)];
    [reflexivity |].
  simpl. now destruct (Nat.eqb_spec c c') as [-> | Hne].
Qed.

Lemma ancestors_stable (c c' : cid) (d : string) (w : world) :
  ancestors (classes (snd (can_handle c' d w)) c) = ancestors (classes w c).
Proof.
  destruct (can_handle_step c' d w) as [-> | (p & rx & Hp & Hr & Hc & ->)];
    [reflexivity |].
  simpl. now destruct (Nat.eqb_spec c c') as [-> | Hne].
Qed.

Lemma foreign_stable (c c' : cid) (d : string) (w : world) :
  foreign_rx (classes (snd (can_handle c' d w)) c)
  = foreign_rx (classes w c).
Proof.
  destruct (can_handle_step c' d w) as [-> | (p & rx & Hp & Hr & Hc & ->)];
    [reflexivity |].
  simpl. now destruct (Nat.eqb_spec c c') as [-> | Hne].
Qed.

(** A pattern object that a class holds itself is the one it reads,
    and it stays. *)
Lemma get__rx_own (w : world) (c : cid) (rx : Pattern) :
  _rx (classes w c) = Some (Some rx) -> get__rx w c = Some (Some rx).
Proof. intros H. unfold get__rx. simpl. now rewrite H. Qed.

Lemma own_entry_kept (c c' : cid) (d : string) (w : world) (rx : Pattern) :
  _rx (classes w c) = Some (Some rx) ->
  _rx (classes (snd (can_handle c' d w)) c) = Some (Some rx).
Proof.
  intros H.
  destruct (can_handle_step c' d w) as [-> | (p & rx' & Hp & Hr & Hc & ->)];
    [exact H |].
  simpl. destruct (Nat.eqb_spec c c') as [-> | Hne]; [| exact H].
  rewrite (get__rx_own w c' H) in Hr. discriminate.
Qed.

Lemma evaluated_own_entry (d : string) (c : cid) (rx : Pattern)
  (l : list cid) :
  forall w : world,
    _rx (classes w c) = Some (Some rx) ->
    _rx (classes (evaluated d l w) c) = Some (Some rx).
Proof.
  induction l as [| a l IH]; intros w H; [exact H |].
  rewrite evaluated_cons. now apply IH, own_entry_kept.
Qed.

Lemma evaluated_pattern (d : string) (c : cid) (l : list cid) :
  forall w : world,
    MAGIC_PATTERN (classes (evaluated d l w) c) = MAGIC_PATTERN (classes w c).
Proof.
  induction l as [| a l IH]; intros w; [reflexivity |].
  rewrite evaluated_cons, IH. apply pattern_stable.
Qed.

(** The verdict of a class that reads no pattern object, or its own. *)
Lemma own_pattern_verdict (w : world) (c : cid) (pattern : string)
  (r : regex) (d : string) :
  MAGIC_PATTERN (classes w c) = Some pattern ->
  re_parse pattern = Parsed r ->
  get__rx w c = Some None \/ _rx (classes w c) = Some (Some (Fragment r)) ->
  fst (can_handle c d w) = Ok (re_match r d).
Proof.
  intros Hp Hc Hr.
  apply (can_handle_declared w c d Hp
           (re_compile_parsed (foreign_rx (classes w c)) pattern Hc)).
  destruct Hr as [Hr | Hr]; [now left | right; now apply get__rx_own].
Qed.

Lemma first_call_pins (w : world) (c : cid) (pattern : string) (r : regex)
  (d : string) :
  MAGIC_PATTERN (classes w c) = Some pattern ->
  re_parse pattern = Parsed r ->
  get__rx w c = Some None \/ _rx (classes w c) = Some (Some (Fragment r)) ->
  _rx (classes (snd (can_handle c d w)) c) = Some (Some (Fragment r)).
Proof.
  intros Hp Hc [Hr | Hr]; [| now apply own_entry_kept].
  unfold can_handle, bind, get, ret, raise, modify. cbn [fst snd].
  rewrite Hp, Hr, (re_compile_parsed (foreign_rx (classes w c)) pattern Hc).
  simpl. now rewrite Nat.eqb_refl.
Qed.

Lemma verdict_prefix (w : world) (c : cid) (r : regex) (d : string) :
  fst (can_handle c d w) = Ok (re_match r d) ->
  (handles w c d <-> matches_prefix r d)
  /\ (rejects w c d <-> ~ matches_prefix r d).
Proof.
  intros V. unfold handles, rejects. rewrite V. split; split.
  - intros [e He]. injection He as He. apply re_match_prefix. now exists e.
  - intros H. apply re_match_prefix in H. destruct H as [e He].
    exists e. now rewrite He.
  - intros H. injection H as H. now apply re_match_none.
  - intros H. apply re_match_none in H. now rewrite H.
Qed.

Lemma rmatch_extend (r : regex) (x y : pos) :
  rmatch r x y ->
  eol_free r = true ->
  forall t, rmatch r (fst x, snd x ++ t) (fst y, snd y ++ t).
Proof.
  induction 1; simpl; intros He t; try discriminate.
  - constructor.
  - constructor.
  - now constructor.
  - constructor.
  - apply andb_true_iff in He. destruct He as [H1 H2].
    eapply MCat; [now apply IHrmatch1 | now apply IHrmatch2].
  - apply andb_true_iff in He. destruct He as [H1 H2].
    apply MAltL. now apply IHrmatch.
  - apply andb_true_iff in He. destruct He as [H1 H2].
    apply MAltR. now apply IHrmatch.
  - destruct x. constructor.
  - eapply MStarS; [now apply IHrmatch1 | now apply IHrmatch2].
Qed.

Lemma list_ascii_of_string_app (s1 s2 : string) :
  list_ascii_of_string (s1 ++ s2)
  = list_ascii_of_string s1 ++ list_ascii_of_string s2.
Proof.
  induction s1 as [| a s1 IH]; simpl; [reflexivity | now rewrite IH].
Qed.

Lemma matches_prefix_extend (r : regex) (d s : string) :
  eol_free r = true ->
  matches_prefix r d -> matches_prefix r (d ++ s)%string.
Proof.
  intros He (p & q & b & Hd & Hm).
  exists p, (q ++ list_ascii_of_string s), b. split.
  - now rewrite list_ascii_of_string_app, Hd, app_assoc.
  - pose proof (rmatch_extend Hm He (list_ascii_of_string s)) as H.
    simpl in H. now rewrite <- app_assoc in H.
Qed.

End CanHandleMore.

(** X6. The pattern object that a class holds in its own namespace is
    always the one its own [MAGIC_PATTERN] compiles to: a call of
    [can_handle], on any class and descriptor, preserves this for
    every class.  (What a class reads may still be the entry of an
    ancestor.) *)
Theorem can_handle_keeps_coherence :
  forall (w : Basetask.world) (c0 : Basetask.cid) (d : string),
    (forall c, Basetask.rx_coherent (Basetask.classes w c)) ->
    forall c,
      Basetask.rx_coherent
        (Basetask.classes (snd (Basetask.can_handle c0 d w)) c).
Proof.
  intros w c0 d H c. apply coherence_step, H.
Qed.

Lemma can_handle_keeps_coherence_witness :
  Basetask.rx_coherent
    (Basetask.classes (snd (Basetask.can_handle 2 "image/png" Samples.w0)) 2)
  /\ exists rx : Re.Pattern,
      Basetask._rx
        (Basetask.classes (snd (Basetask.can_handle 2 "image/png" Samples.w0))
           2)
      = Some (Some rx).
Proof.
  split; [| eexists; reflexivity].
  apply (@can_handle_keeps_coherence Samples.w0 2 "image/png").
  intros c. unfold Basetask.rx_coherent.
  do 8 (destruct c as [| c]; [exact I |]). exact I.
Defined.


(** X8. A type whose pattern is written in the fragment of [Re], and
    that reads no pattern object or holds its own, decides by its own
    pattern: [can_handle] reports a match exactly when the pattern
    matches a prefix of the descriptor.  Its first call stores the
    pattern object in the class itself, so the same holds after any
    later calls of [can_handle], on any classes. *)
Theorem can_handle_own_pattern :
  forall (w : Basetask.world) (c : Basetask.cid) (pattern : string)
         (r : Re.regex),
    Basetask.MAGIC_PATTERN (Basetask.classes w c) = Some pattern ->
    Re.re_parse pattern = Re.Parsed r ->
    Basetask.get__rx w c = Some None
    \/ Basetask._rx (Basetask.classes w c) = Some (Some (Re.Fragment r)) ->
    (forall d : string,
        (Basetask.handles w c d <-> Re.matches_prefix r d)
        /\ (Basetask.rejects w c d <-> ~ Re.matches_prefix r d))
    /\ (forall (d0 d' : string) (l : list Basetask.cid) (d : string),
           (Basetask.handles
              (Basetask.evaluated d' l (snd (Basetask.can_handle c d0 w))) c d
            <-> Re.matches_prefix r d)
           /\ (Basetask.rejects
                 (Basetask.evaluated d' l (snd (Basetask.can_handle c d0 w)))
                 c d
               <-> ~ Re.matches_prefix r d)).
Proof.
  intros w c pattern r Hp Hc Hr. split.
  - intros d. apply verdict_prefix.
    now apply own_pattern_verdict with (pattern := pattern).
  - intros d0 d' l d. apply verdict_prefix.
    apply own_pattern_verdict with (pattern := pattern); [| exact Hc |].
    + now rewrite evaluated_pattern, pattern_stable.
    + right. apply evaluated_own_entry.
      now apply first_call_pins with (pattern := pattern).
Qed.

Lemma can_handle_own_pattern_witness :
  (Basetask.handles Samples.w_derived 8 "image/jpeg"
   <-> Re.matches_prefix
         (Re.Cat Re.Bol
            (Re.Cat (Re.Lit "i") (Re.Cat (Re.Lit "m") (Re.Cat (Re.Lit "a")
            (Re.Cat (Re.Lit "g") (Re.Cat (Re.Lit "e") (Re.Cat (Re.Lit "/")
            (Re.Cat (Re.Lit "j") (Re.Cat (Re.Lit "p") (Re.Cat (Re.Lit "e")
            (Re.Cat (Re.Lit "g") (Re.Cat Re.Eol Re.Empty))))))))))))
         "image/jpeg")
  /\ Basetask.rejects
       (Basetask.evaluated "image/png" [2]
          (snd (Basetask.can_handle 8 "image/jpeg" Samples.w_derived)))
       8 "image/png".
Proof.
  destruct (@can_handle_own_pattern Samples.w_derived 8 "^image/jpeg$" _
              eq_refl eq_refl (or_introl eq_refl)) as [H1 H2].
  split; [apply (H1 "image/jpeg") |].
  apply (H2 "image/jpeg" "image/png" [2] "image/png").
  apply re_match_none. reflexivity.
Defined.

(** X9. [can_handle] writes nothing but the entry [_rx] of the class
    it is called on: the tasks cache, the class object of every other
    class, and the name, ancestors, pattern and work routine of the
    class itself are as before. *)
Theorem can_handle_frame :
  forall (w : Basetask.world) (c : Basetask.cid) (d : string),
    Basetask._tasks_cache (snd (Basetask.can_handle c d w))
    = Basetask._tasks_cache w
    /\ (forall c', c' <> c ->
          Basetask.classes (snd (Basetask.can_handle c d w)) c'
          = Basetask.classes w c')
    /\ Basetask.__name__ (Basetask.classes (snd (Basetask.can_handle c d w)) c)
       = Basetask.__name__ (Basetask.classes w c)
    /\ Basetask.ancestors
         (Basetask.classes (snd (Basetask.can_handle c d w)) c)
       = Basetask.ancestors (Basetask.classes w c)
    /\ Basetask.MAGIC_PATTERN
         (Basetask.classes (snd (Basetask.can_handle c d w)) c)
       = Basetask.MAGIC_PATTERN (Basetask.classes w c)
    /\ Basetask.run (Basetask.classes (snd (Basetask.can_handle c d w)) c)
       = Basetask.run (Basetask.classes w c).
Proof.
  intros w c d. split; [| split; [| split; [| split; [| split]]]].
  - destruct (can_handle_step c d w) as [-> | (p & rx & _ & _ & _ & ->)];
      reflexivity.
  - intros c' Hne. now apply class_untouched.
  - apply name_stable.
  - apply ancestors_stable.
  - apply pattern_stable.
  - destruct (can_handle_step c d w) as [-> | (p & rx & _ & _ & _ & ->)];
      [reflexivity |].
    simpl. now rewrite Nat.eqb_refl.
Qed.

(** X10. For a type whose pattern is written in the fragment of [Re]
    (literal characters, [.], [^] and the greedy [*], [+], [?]) without
    [$], and that reads no pattern object or holds its own: when it
    handles a descriptor it handles every descriptor that extends it.
    The match is on a prefix, so what follows is not looked at. *)
Theorem can_handle_longer_descriptor :
  forall (w : Basetask.world) (c : Basetask.cid) (pattern : string)
         (r : Re.regex) (d s : string),
    Basetask.MAGIC_PATTERN (Basetask.classes w c) = Some pattern ->
    Re.re_parse pattern = Re.Parsed r ->
    Basetask.get__rx w c = Some None
    \/ Basetask._rx (Basetask.classes w c) = Some (Some (Re.Fragment r)) ->
    Re.eol_free r = true ->
    Basetask.handles w c d ->
    Basetask.handles w c (d ++ s)%string.
Proof.
  intros w c pattern r d s Hp Hc Hr He Hd.
  apply (@verdict_prefix w c r d (own_pattern_verdict w c d Hp Hc Hr)) in Hd.
  apply (@verdict_prefix w c r (d ++ s)%string
           (own_pattern_verdict w c (d ++ s)%string Hp Hc Hr)).
  now apply matches_prefix_extend.
Qed.

Lemma can_handle_longer_descriptor_witness :
  Basetask.handles Samples.w0 2 ("image/jpeg" ++ "; charset=x")%string.
Proof.
  apply (@can_handle_longer_descriptor Samples.w0 2 "image/.*"
           (Re.Cat (Re.Lit "i") (Re.Cat (Re.Lit "m") (Re.Cat (Re.Lit "a")
            (Re.Cat (Re.Lit "g") (Re.Cat (Re.Lit "e") (Re.Cat (Re.Lit "/")
            (Re.Cat (Re.Star Re.Dot) Re.Empty)))))))
           "image/jpeg" "; charset=x");
    [reflexivity | reflexivity | left; reflexivity | reflexivity
    | exists 10; reflexivity].
Defined.

(* ================================================================== *)
(** * More about dispatch *)
(* ================================================================== *)

Section DispatchMore.

Import Re Basetask.

(** ** Later states *)

Lemma later_step (c : cid) (d : string) (w : world) :
  later w (snd (can_handle c d w)).
Proof.
  split.
  - destruct (can_handle_step c d w) as [-> | (p & rx & _ & _ & _ & ->)];
      reflexivity.
  - intros c'. split; [apply ancestors_stable |].
    split; [apply pattern_stable |]. split; [apply foreign_stable |].
    destruct (can_handle_step c d w) as [-> | (p & rx & _ & _ & _ & ->)];
      [now left |].
    simpl. destruct (Nat.eqb_spec c' c) as [-> | Hne]; [| now left].
    right. now exists rx.
Qed.

Lemma lookup_later (w w' : world) :
  later w w' ->
  forall (mro : list cid) (entry : option Pattern),
    lookup_rx (classes w) mro = Some entry ->
    lookup_rx (classes w') mro = Some entry
    \/ exists rx : Pattern, lookup_rx (classes w') mro = Some (Some rx).
Proof.
  intros [_ H]. induction mro as [| a mro IH]; intros entry; simpl;
    [discriminate |].
  destruct (H a) as (_ & _ & _ & [Hr | [rx Hr]]); rewrite Hr.
  - destruct (_rx (classes w a)) as [e |]; [now left | apply IH].
  - intros _. right. now exists rx.
Qed.

(** A class that reports a verdict reports one in every later state. *)
Lemma verdict_later (w w' : world) (c : cid) (d : string) :
  later w w' ->
  (exists m, fst (can_handle c d w) = Ok m) ->
  exists m, fst (can_handle c d w') = Ok m.
Proof.
  intros Hl [m Hm]. pose proof (lookup_later Hl) as Hk.
  destruct Hl as [_ Hl]. destruct (Hl c) as (Ha & Hp & Hf & _).
  revert Hm.
  unfold can_handle, bind, get, ret, raise, modify, get__rx. cbn [fst snd].
  rewrite Hp, Ha, Hf.
  destruct (MAGIC_PATTERN (classes w c)) as [pattern |];
    [| now destruct (_name_attr (classes w c))].
  specialize (Hk (c :: ancestors (classes w c))).
  destruct (lookup_rx (classes w) (c :: ancestors (classes w c)))
    as [entry |]; [| discriminate].
  destruct (Hk entry eq_refl) as [-> | [rx ->]]; [| intros _; now eexists].
  destruct entry as [rx |]; [intros _; now eexists |].
  destruct (re_compile (foreign_rx (classes w c)) pattern) as [rx |];
    [intros _; now eexists | discriminate].
Qed.

(** The two modes of the loop, side by side. *)
Lemma suitable_modes (d : string) :
  forall (l : list cid) (w : world) (acc acc' : list string),
    (forall c, In c l -> exists m, fst (can_handle c d w) = Ok m) ->
    exists ns : list string,
      fst (suitable d false l acc w) = Ok (Names (acc ++ ns))
      /\ fst (suitable d true l acc' w)
         = Ok match ns with
              | [] => Names acc'
              | n :: _ => Name n
              end.
Proof.
  induction l as [| a l IH]; intros w acc acc' H.
  - exists []. cbn [suitable]. unfold ret. cbn [fst].
    now rewrite app_nil_r.
  - assert (Hl : forall c, In c l ->
                   exists m, fst (can_handle c d (snd (can_handle a d w)))
                             = Ok m).
    { intros c Hc. apply verdict_later with (w := w);
        [apply later_step | apply H; now right]. }
    destruct (H a (or_introl eq_refl)) as [m Hm].
    rewrite !suitable_cons, Hm.
    destruct m as [e |].
    + destruct (IH (snd (can_handle a d w)) (acc ++ [__name__ (classes w a)])
                   acc' Hl) as (ns & H1 & _).
      exists (__name__ (classes w a) :: ns).
      split; [| reflexivity].
      rewrite H1. now rewrite <- app_assoc.
    + apply IH, Hl.
Qed.

(** ** Flat hierarchies *)

Lemma lookup_rx_ext (K K' : cid -> class_attrs) (mro : list cid) :
  (forall a, In a mro -> _rx (K' a) = _rx (K a)) ->
  lookup_rx K' mro = lookup_rx K mro.
Proof.
  induction mro as [| a mro IH]; intros H; simpl; [reflexivity |].
  rewrite (H a (or_introl eq_refl)), IH; [reflexivity |].
  intros b Hb. apply H. now right.
Qed.

Lemma flat_step (c : cid) (d : string) (w : world) :
  flat w -> flat (snd (can_handle c d w)).
Proof.
  intros H c0 a Ha. rewrite ancestors_stable in Ha.
  destruct (H c0 a Ha) as [Hp Hr]. rewrite pattern_stable.
  split; [exact Hp |].
  destruct (can_handle_step c d w) as [-> | (p & rx & Hp' & _)];
    [exact Hr |].
  rewrite class_untouched; [exact Hr |].
  intros ->. congruence.
Qed.

Lemma verdict_stable (c c' : cid) (d d' : string) (w : world) :
  flat w ->
  fst (can_handle c d (snd (can_handle c' d' w))) = fst (can_handle c d w).
Proof.
  intros Hf.
  destruct (can_handle_step c' d' w) as [-> | (p & rx & Hp & Hr & Hc & E)];
    [reflexivity |].
  destruct (Nat.eq_dec c c') as [-> | Hne].
  - rewrite (can_handle_declared w c' d Hp Hc (or_introl Hr)).
    apply can_handle_declared with (pattern := p).
    + now rewrite pattern_stable.
    + now rewrite foreign_stable.
    + right. apply get__rx_own. rewrite E. simpl.
      now rewrite Nat.eqb_refl.
  - assert (Hk : get__rx (snd (can_handle c' d' w)) c = get__rx w c).
    { unfold get__rx. rewrite ancestors_stable.
      apply lookup_rx_ext. intros a [<- | Ha].
      - now rewrite class_untouched by (intros H; apply Hne; now symmetry).
      - rewrite class_untouched; [reflexivity |].
        intros ->. destruct (Hf c c' Ha) as [Hn _]. congruence. }
    assert (Hcl : classes (snd (can_handle c' d' w)) c = classes w c).
    { now rewrite class_untouched by (intros H; apply Hne; now symmetry). }
    clear E. revert Hk Hcl.
    generalize (snd (can_handle c' d' w)). intros w1 Hk Hcl.
    unfold can_handle, bind, get, ret, raise, modify. cbn [fst snd].
    rewrite Hk, Hcl.
    destruct (MAGIC_PATTERN (classes w c)) as [pattern |];
      [| now destruct (_name_attr (classes w c))].
    destruct (get__rx w c) as [[rx0 |] |]; try reflexivity.
    now destruct (re_compile (foreign_rx (classes w c)) pattern).
Qed.

Lemma same_view_refl (w : world) : same_view w w.
Proof. split; [reflexivity | now intros c]. Qed.

Lemma same_view_sym (w w' : world) : same_view w w' -> same_view w' w.
Proof.
  intros [Hc H]. split; [now symmetry |].
  intros c. destruct (H c) as (H1 & H2 & H3 & H4).
  split; [now symmetry |]. split; [now symmetry |]. split; [now symmetry |].
  intros d. symmetry. apply H4.
Qed.

Lemma same_view_trans (w1 w2 w3 : world) :
  same_view w1 w2 -> same_view w2 w3 -> same_view w1 w3.
Proof.
  intros [Hc H] [Hc' H']. split; [congruence |].
  intros c. destruct (H c) as (H1 & H2 & H3 & H4).
  destruct (H' c) as (H1' & H2' & H3' & H4').
  split; [congruence |]. split; [congruence |]. split; [congruence |].
  intros d. now rewrite H4', H4.
Qed.

Lemma same_view_step (c : cid) (d : string) (w : world) :
  flat w -> same_view w (snd (can_handle c d w)).
Proof.
  intros Hf. split.
  - destruct (can_handle_step c d w) as [-> | (p & rx & _ & _ & _ & ->)];
      reflexivity.
  - intros c'. split; [apply name_stable |]. split; [| split].
    + destruct (can_handle_step c d w) as [-> | (p & rx & _ & _ & _ & ->)];
        [reflexivity |].
      simpl. now destruct (Nat.eqb_spec c' c) as [-> | Hne].
    + destruct (can_handle_step c d w) as [-> | (p & rx & _ & _ & _ & ->)];
        [reflexivity |].
      simpl. now destruct (Nat.eqb_spec c' c) as [-> | Hne].
    + intros d'. now apply verdict_stable.
Qed.

(** In a flat hierarchy the loop leaves a flat state with the same
    view. *)
Lemma suitable_view (d : string) (first_only : bool) :
  forall (l : list cid) (acc : list string) (w : world),
    flat w ->
    same_view w (snd (suitable d first_only l acc w))
    /\ flat (snd (suitable d first_only l acc w)).
Proof.
  induction l as [| a l IH]; intros acc w Hf;
    [split; [apply same_view_refl | exact Hf] |].
  rewrite suitable_cons.
  pose proof (same_view_step a d Hf) as Hs.
  pose proof (flat_step a d Hf) as Hf1.
  destruct (fst (can_handle a d w)) as [[e |] | e].
  - destruct first_only; [now split |].
    destruct (IH (acc ++ [__name__ (classes w a)]) _ Hf1) as [H1 H2].
    split; [eapply same_view_trans; [exact Hs | exact H1] | exact H2].
  - destruct (IH acc _ Hf1) as [H1 H2].
    split; [eapply same_view_trans; [exact Hs | exact H1] | exact H2].
  - now split.
Qed.

(** The loop gives the same result from flat states with the same
    view. *)
Lemma suitable_same_view (d : string) (first_only : bool) :
  forall (l : list cid) (acc : list string) (w w' : world),
    same_view w w' -> flat w -> flat w' ->
    fst (suitable d first_only l acc w') = fst (suitable d first_only l acc w).
Proof.
  induction l as [| a l IH]; intros acc w w' Hv Hf Hf'; [reflexivity |].
  rewrite !suitable_cons.
  assert (Hv1 : same_view (snd (can_handle a d w)) (snd (can_handle a d w'))).
  { eapply same_view_trans; [apply same_view_sym, same_view_step, Hf |].
    eapply same_view_trans; [exact Hv | apply same_view_step, Hf']. }
  pose proof (flat_step a d Hf) as Hf1.
  pose proof (flat_step a d Hf') as Hf1'.
  destruct Hv as [_ Hv]. destruct (Hv a) as (-> & _ & _ & Hd). rewrite Hd.
  destruct (fst (can_handle a d w)) as [[e |] | e].
  - destruct first_only; [reflexivity |]. now apply IH.
  - now apply IH.
  - reflexivity.
Qed.

Lemma universe_same_view (w w' : world) (E : env) :
  same_view w w' -> universe w' E = universe w E.
Proof.
  intros [_ Hv]. unfold universe.
  apply flat_map_ext. intros m. apply flat_map_ext. intros [n o].
  simpl. destruct o as [c |]; [| reflexivity].
  unfold is_task_class. destruct (Hv c) as (_ & -> & -> & _). reflexivity.
Qed.

(** Discovery gives the same result from states with the same view. *)
Lemma find_tasks_same_view (E : env) (name : value) (rebuild_cache : bool)
  (w w' : world) :
  same_view w w' ->
  fst (find_tasks E name rebuild_cache w')
  = fst (find_tasks E name rebuild_cache w).
Proof.
  intros Hv. pose proof (universe_same_view E Hv) as Hu.
  destruct Hv as [Hc _].
  unfold find_tasks, bind, get, ret, raise. simpl.
  rewrite Hc, !scan_universe, Hu.
  destruct (if ENABLE_TASKS_CACHE E && negb rebuild_cache
            then _tasks_cache w else None); [reflexivity |].
  destruct name; try reflexivity;
    now destruct (List.length _ <=? 1)%nat.
Qed.

Lemma find_tasks_by_filetype_view (E : env) (d : string) (first_only : bool)
  (w : world) :
  flat w ->
  same_view w (snd (find_tasks_by_filetype E d first_only w))
  /\ flat (snd (find_tasks_by_filetype E d first_only w)).
Proof.
  intros Hf. unfold find_tasks_by_filetype, bind.
  rewrite (find_tasks_pair E VNone false w eq_refl).
  destruct (fst (find_tasks E VNone false w)) as [l | e];
    [now apply suitable_view | split; [apply same_view_refl | exact Hf]].
Qed.

Lemma find_tasks_by_filetype_same_view (E : env) (d : string)
  (first_only : bool) (w w' : world) :
  same_view w w' -> flat w -> flat w' ->
  fst (find_tasks_by_filetype E d first_only w')
  = fst (find_tasks_by_filetype E d first_only w).
Proof.
  intros Hv Hf Hf'. pose proof (find_tasks_same_view E VNone false Hv) as Hd.
  unfold find_tasks_by_filetype, bind.
  rewrite (find_tasks_pair E VNone false w eq_refl).
  rewrite (find_tasks_pair E VNone false w' eq_refl), Hd.
  destruct (fst (find_tasks E VNone false w)) as [l | e]; [| reflexivity].
  now apply suitable_same_view.
Qed.

(** ** Errors and invariants *)

(** A type that raises stops the loop, whatever was collected. *)
Lemma suitable_raise (d : string) (c : cid) (l2 : list cid) (e : exn) :
  forall (l1 : list cid) (first_only : bool) (acc : list string) (w : world),
    in_turn (fun w' c' => rejects w' c' d
                          \/ (first_only = false /\ handles w' c' d)) d l1 w ->
    fst (can_handle c d (evaluated d l1 w)) = Raise e ->
    fst (suitable d first_only (l1 ++ c :: l2) acc w) = Raise e.
Proof.
  induction l1 as [| a l1 IH]; intros first_only acc w Hl He.
  - change (evaluated d [] w) with w in He. cbn [app suitable].
    unfold bind. rewrite can_handle_pair, He. reflexivity.
  - destruct Hl as [Ha Hl]. rewrite evaluated_cons in He.
    cbn [app suitable]. unfold bind at 1. rewrite can_handle_pair.
    destruct Ha as [Hr | [-> [m Hm]]].
    + unfold rejects in Hr. rewrite Hr. now apply IH.
    + rewrite Hm. unfold bind, get. cbn [fst snd]. now apply IH.
Qed.

Lemma suitable_coherent (d : string) (first_only : bool) (c : cid) :
  forall (l : list cid) (acc : list string) (w : world),
    rx_coherent (classes w c) ->
    rx_coherent (classes (snd (suitable d first_only l acc w)) c).
Proof.
  induction l as [| a l IH]; intros acc w H; [exact H |].
  rewrite suitable_cons.
  pose proof (coherence_step a c d w H) as Hs.
  destruct (fst (can_handle a d w)) as [[e |] | e].
  - destruct first_only; [exact Hs | now apply IH].
  - now apply IH.
  - exact Hs.
Qed.

Lemma suitable_cache (d : string) (first_only : bool) :
  forall (l : list cid) (acc : list string) (w : world),
    _tasks_cache (snd (suitable d first_only l acc w)) = _tasks_cache w.
Proof.
  induction l as [| a l IH]; intros acc w; [reflexivity |].
  rewrite suitable_cons.
  pose proof (proj1 (later_step a d w)) as Hs.
  destruct (fst (can_handle a d w)) as [[e |] | e].
  - destruct first_only; [exact Hs | now rewrite IH].
  - now rewrite IH.
  - exact Hs.
Qed.

End DispatchMore.

(** X11. An error of [can_handle] aborts the dispatch: when a type
    raises in its turn and the types before it reported no match in
    theirs (or, when all matches are collected, reported any verdict),
    the call raises the same error and returns none of the names
    collected so far. *)
Theorem find_tasks_by_filetype_raises :
  forall (E : Basetask.env) (w : Basetask.world) (d : string)
         (first_only : bool) (l1 : list Basetask.cid) (c : Basetask.cid)
         (l2 : list Basetask.cid) (e : exn),
    fst (Basetask.find_tasks E VNone false w) = Ok (l1 ++ c :: l2) ->
    Basetask.in_turn
      (fun w' c' => Basetask.rejects w' c' d
                    \/ (first_only = false /\ Basetask.handles w' c' d))
      d l1 w ->
    fst (Basetask.can_handle c d (Basetask.evaluated d l1 w)) = Raise e ->
    fst (Basetask.find_tasks_by_filetype E d first_only w) = Raise e.
Proof.
  intros E w d first_only l1 c l2 e Hl H1 He.
  rewrite (find_tasks_by_filetype_loop E d first_only w Hl).
  now apply suitable_raise.
Qed.

Lemma find_tasks_by_filetype_raises_witness :
  fst (Basetask.find_tasks_by_filetype Samples.E4 "image/png" false
         Samples.w0)
  = Raise (Exn AttributeError "_name").
Proof.
  apply (@find_tasks_by_filetype_raises Samples.E4 Samples.w0 "image/png"
           false [1; 2] 4 [] (Exn AttributeError "_name")).
  - reflexivity.
  - split; [left; reflexivity |].
    split; [right; split; [reflexivity | exists 9; reflexivity] | exact I].
  - reflexivity.
Defined.

(** X12. The two modes agree: when every discovered type reports a
    verdict, the name returned with [first_only] is the first of the
    names returned without it, and the result is the empty list in
    both modes when that list is empty. *)
Theorem find_tasks_by_filetype_modes_agree :
  forall (E : Basetask.env) (w : Basetask.world) (d : string)
         (l : list Basetask.cid),
    fst (Basetask.find_tasks E VNone false w) = Ok l ->
    (forall c, In c l -> Basetask.handles w c d \/ Basetask.rejects w c d) ->
    exists ns : list string,
      fst (Basetask.find_tasks_by_filetype E d false w)
      = Ok (Basetask.Names ns)
      /\ fst (Basetask.find_tasks_by_filetype E d true w)
         = Ok match ns with
              | [] => Basetask.Names []
              | n :: _ => Basetask.Name n
              end.
Proof.
  intros E w d l Hl Hv.
  rewrite (find_tasks_by_filetype_loop E d false w Hl).
  rewrite (find_tasks_by_filetype_loop E d true w Hl).
  apply (@suitable_modes d l w [] []).
  intros c Hc. destruct (Hv c Hc) as [[e He] | Hr]; eexists; eassumption.
Qed.

Lemma find_tasks_by_filetype_modes_agree_witness :
  exists ns : list string,
    fst (Basetask.find_tasks_by_filetype Samples.E2 "image/png" false
           Samples.w0)
    = Ok (Basetask.Names ns)
    /\ fst (Basetask.find_tasks_by_filetype Samples.E2 "image/png" true
              Samples.w0)
       = Ok match ns with
            | [] => Basetask.Names []
            | n :: _ => Basetask.Name n
            end.
Proof.
  apply (@find_tasks_by_filetype_modes_agree Samples.E2 Samples.w0
           "image/png" [1; 2] eq_refl).
  intros c [<- | [<- | []]].
  - right. reflexivity.
  - left. exists 9. reflexivity.
Defined.

(** X13. When no task type derives from another one (the ancestors of
    every class declare no pattern and hold no pattern object), a
    dispatch is not affected by the dispatches made before it: after
    any call of [find_tasks_by_filetype], a call returns what it would
    have returned in the state before. *)
Theorem find_tasks_by_filetype_repeatable :
  forall (E E' : Basetask.env) (w : Basetask.world) (d d' : string)
         (first_only first_only' : bool),
    Basetask.flat w ->
    fst (Basetask.find_tasks_by_filetype E d first_only
           (snd (Basetask.find_tasks_by_filetype E' d' first_only' w)))
    = fst (Basetask.find_tasks_by_filetype E d first_only w).
Proof.
  intros E E' w d d' first_only first_only' Hf.
  destruct (find_tasks_by_filetype_view E' d' first_only' Hf) as [Hv Hf'].
  now apply find_tasks_by_filetype_same_view.
Qed.

Lemma find_tasks_by_filetype_repeatable_witness :
  fst (Basetask.find_tasks_by_filetype Samples.E2 "image/png" true
         (snd (Basetask.find_tasks_by_filetype Samples.E4 "text/plain" false
                 Samples.w0)))
  = fst (Basetask.find_tasks_by_filetype Samples.E2 "image/png" true
           Samples.w0).
Proof.
  apply (@find_tasks_by_filetype_repeatable Samples.E2 Samples.E4 Samples.w0
           "image/png" "text/plain" true false).
  intros c a Ha.
  assert (Ha0 : a = 0).
  { do 8 (destruct c as [| c];
          [first [destruct Ha as [Ha | []]; symmetry; exact Ha
                 | destruct Ha] |]).
    destruct Ha. }
  rewrite Ha0. split; [reflexivity | discriminate].
Defined.

(** X14. A dispatch leaves the tasks cache as it was, and the pattern
    object that a class holds in its own namespace stays the one its
    own [MAGIC_PATTERN] compiles to. *)
Theorem find_tasks_by_filetype_keeps_state :
  forall (E : Basetask.env) (w : Basetask.world) (d : string)
         (first_only : bool),
    (forall c, Basetask.rx_coherent (Basetask.classes w c)) ->
    Basetask._tasks_cache
      (snd (Basetask.find_tasks_by_filetype E d first_only w))
    = Basetask._tasks_cache w
    /\ forall c,
        Basetask.rx_coherent
          (Basetask.classes
             (snd (Basetask.find_tasks_by_filetype E d first_only w)) c).
Proof.
  intros E w d first_only H.
  unfold Basetask.find_tasks_by_filetype, bind.
  rewrite (find_tasks_pair E VNone false w eq_refl).
  destruct (fst (Basetask.find_tasks E VNone false w)) as [l | e].
  - split; [apply suitable_cache | intros c; apply suitable_coherent, H].
  - split; [reflexivity | exact H].
Qed.

Lemma find_tasks_by_filetype_keeps_state_witness :
  Basetask._tasks_cache
    (snd (Basetask.find_tasks_by_filetype Samples.E2 "image/png" false
            Samples.w0))
  = Basetask._tasks_cache Samples.w0
  /\ forall c,
      Basetask.rx_coherent
        (Basetask.classes
           (snd (Basetask.find_tasks_by_filetype Samples.E2 "image/png" false
                   Samples.w0)) c).
Proof.
  apply (@find_tasks_by_filetype_keeps_state Samples.E2 Samples.w0
           "image/png" false).
  intros c. unfold Basetask.rx_coherent.
  do 8 (destruct c as [| c]; [exact I |]). exact I.
Defined.

(* ================================================================== *)
(** * More about serialization *)
(* ================================================================== *)

Section SerializationMore.

Import Basetask.

(** [from_dict] on a dict, step by step. *)
Lemma from_dict_steps (E : env) (w : world) (d : list (string * value)) :
  from_dict E (VDict d) w
  = (match dict_find "name" d with
     | None => Raise (Exn KeyError "name")
     | Some name =>
         match fst (find_tasks E name false w) with
         | Raise e => Raise e
         | Ok [] => Raise (Exn IndexError "list index out of range")
         | Ok (c :: _) =>
             match dict_find "path" d with
             | None => Raise (Exn KeyError "path")
             | Some path =>
                 match unpack (dict_get d "args" (VList [])) with
                 | Some [] =>
                     fst (restore w d
                            (new w c path
                               (dict_get d "priority" (VInt PRIO_NORMAL))))
                 | _ => Raise (Exn TypeError "args")
                 end
             end
         end
     end, w).
Proof.
  unfold from_dict.
  destruct (dict_find "name" d) as [name |]; [| reflexivity].
  unfold bind at 1. rewrite (find_tasks_pair E name false w eq_refl).
  destruct (fst (find_tasks E name false w)) as [[| c l] | e];
    try reflexivity.
  destruct (dict_find "path" d) as [path |]; [| reflexivity].
  destruct (unpack (dict_get d "args" (VList []))) as [[| a args] |];
    try reflexivity.
  unfold bind, get, ret, raise. cbn [fst].
  now destruct (restore w d _) as [[t' | e] s'].
Qed.

(** The last steps of [from_dict], by the [completed] field. *)
Lemma restore_result (w : world) (d : list (string * value)) (t : task) :
  fst (restore w d t)
  = match dict_get d "completed" (VBool false) with
    | VBool b =>
        Ok (set__result (dict_get d "result" VNone) (set__done b t))
    | _ =>
        Raise (Exn Exception
                   ("Value for " ++ __name__ (classes w (_cls t))
                    ++ ".done must be a boolean")%string)
    end.
Proof.
  unfold restore, bind, done_setter, get, put, modify, raise.
  now destruct (dict_get d "completed" (VBool false)).
Qed.

Lemma from_dict_to_dict (E : env) (w : world) (t : task) (c : cid)
  (rest : list cid) :
  fst (find_tasks E (VStr (_name t)) false w) = Ok (c :: rest) ->
  from_dict E (to_dict t) w
  = (Ok (mkTask c (__name__ (classes w c)) (_path t) (_done t)
           (get_result t) (_priority t) []), w).
Proof.
  intros Hf. unfold to_dict.
  match goal with |- from_dict E (VDict ?l) w = _ => set (d := l) end.
  assert (Hn : dict_find "name" d = Some (VStr (_name t))) by reflexivity.
  assert (Hp : dict_find "path" d = Some (_path t)) by reflexivity.
  assert (Ha : unpack (dict_get d "args" (VList [])) = Some [])
    by reflexivity.
  rewrite from_dict_steps, Hn, Hf, Hp, Ha, restore_result. reflexivity.
Qed.

Lemma dict_find_skip (k k' : string) (v : value)
  (d1 d2 : list (string * value)) :
  k' <> k ->
  dict_find k' (d1 ++ (k, v) :: d2) = dict_find k' (d1 ++ d2).
Proof.
  intros Hne. induction d1 as [| [k1 v1] d1 IH]; simpl.
  - destruct (String.eqb_spec k' k); [contradiction | reflexivity].
  - now rewrite IH.
Qed.

End SerializationMore.

(** X15. [from_dict (to_dict t)] for any task [t], completed or not:
    the new instance belongs to the first class found for the name of
    [t]; it has the path, priority and completion flag of [t], an
    empty queue, and as result what [get_result] gives on [t], so the
    result stored on a task that is not completed is not carried
    over. *)
Theorem from_dict_to_dict_any :
  forall (E : Basetask.env) (w : Basetask.world) (t : Basetask.task)
         (c : Basetask.cid) (rest : list Basetask.cid),
    fst (Basetask.find_tasks E (VStr (Basetask._name t)) false w)
    = Ok (c :: rest) ->
    Basetask.from_dict E (Basetask.to_dict t) w
    = (Ok (Basetask.mkTask c (Basetask.__name__ (Basetask.classes w c))
             (Basetask._path t) (Basetask._done t) (Basetask.get_result t)
             (Basetask._priority t) []), w)
    /\ (Basetask._done t = false ->
        exists t',
          fst (Basetask.from_dict E (Basetask.to_dict t) w) = Ok t'
          /\ Basetask._result t' = VNone).
Proof.
  intros E w t c rest Hf. rewrite (from_dict_to_dict E w t Hf).
  split; [reflexivity |].
  intros Hd. eexists. split; [reflexivity |]. simpl.
  unfold Basetask.get_result, Basetask.done. now rewrite Hd.
Qed.

Lemma from_dict_to_dict_any_witness :
  Basetask.from_dict Samples.E2
    (Basetask.to_dict (Basetask.set__done false Samples.hashed)) Samples.w0
  = (Ok (Basetask.mkTask 1 "Hasher" (VStr "/tmp/f") false VNone (VInt 0) []),
     Samples.w0).
Proof.
  apply (proj1 (@from_dict_to_dict_any Samples.E2 Samples.w0
                  (Basetask.set__done false Samples.hashed) 1 [] eq_refl)).
Defined.

(** X16. Reconstruction is stable: an instance as [from_dict] builds
    them (named after its class, nothing queued, no result unless
    completed) is given back unchanged by [from_dict (to_dict _)],
    when the name of its class finds that class first. *)
Theorem from_dict_to_dict_fixed :
  forall (E : Basetask.env) (w : Basetask.world) (t : Basetask.task)
         (rest : list Basetask.cid),
    Basetask._name t = Basetask.__name__ (Basetask.classes w (Basetask._cls t)) ->
    Basetask._next_tasks t = [] ->
    (Basetask._done t = false -> Basetask._result t = VNone) ->
    fst (Basetask.find_tasks E (VStr (Basetask._name t)) false w)
    = Ok (Basetask._cls t :: rest) ->
    Basetask.from_dict E (Basetask.to_dict t) w = (Ok t, w).
Proof.
  intros E w t rest Hn Hq Hr Hf. rewrite (from_dict_to_dict E w t Hf).
  destruct t as [c n p dn r pr q]. simpl in *. subst n q.
  unfold Basetask.get_result, Basetask.done. simpl.
  destruct dn; [reflexivity |]. now rewrite Hr.
Qed.

Lemma from_dict_to_dict_fixed_witness :
  Basetask.from_dict Samples.E2
    (Basetask.to_dict
       (Basetask.mkTask 1 "Hasher" (VStr "/tmp/f") true (VStr "d41d8cd9")
          (VInt 0) []))
    Samples.w0
  = (Ok (Basetask.mkTask 1 "Hasher" (VStr "/tmp/f") true (VStr "d41d8cd9")
           (VInt 0) []), Samples.w0).
Proof.
  apply (@from_dict_to_dict_fixed Samples.E2 Samples.w0
           (Basetask.mkTask 1 "Hasher" (VStr "/tmp/f") true (VStr "d41d8cd9")
              (VInt 0) []) []);
    [reflexivity | reflexivity | discriminate | reflexivity].
Defined.

(** X17. [from_dict] reads the keys [name], [path], [args],
    [priority], [completed] and [result] only: a binding of any other
    key, [next_tasks] included, changes nothing to what it returns or
    raises. *)
Theorem from_dict_ignores_other_keys :
  forall (E : Basetask.env) (w : Basetask.world) (k : string) (v : value)
         (d1 d2 : list (string * value)),
    ~ In k ["name"; "path"; "args"; "priority"; "completed"; "result"] ->
    Basetask.from_dict E (VDict (d1 ++ (k, v) :: d2)) w
    = Basetask.from_dict E (VDict (d1 ++ d2)) w.
Proof.
  intros E w k v d1 d2 Hk.
  assert (H : forall k',
             In k' ["name"; "path"; "args"; "priority"; "completed"; "result"]
             -> dict_find k' (d1 ++ (k, v) :: d2) = dict_find k' (d1 ++ d2)).
  { intros k' Hk'. apply dict_find_skip. intros ->. contradiction. }
  rewrite !from_dict_steps. unfold dict_get.
  rewrite (H "name"), (H "path"), (H "args"), (H "priority") by (simpl; tauto).
  destruct (dict_find "name" (d1 ++ d2)) as [name |]; [| reflexivity].
  destruct (fst (Basetask.find_tasks E name false w)) as [[| c l] | e];
    try reflexivity.
  destruct (dict_find "path" (d1 ++ d2)) as [path |]; [| reflexivity].
  destruct (Basetask.unpack _) as [[| a args] |]; try reflexivity.
  rewrite !restore_result. unfold dict_get.
  now rewrite (H "completed"), (H "result") by (simpl; tauto).
Qed.

Lemma from_dict_ignores_other_keys_witness :
  Basetask.from_dict Samples.E2
    (VDict ([("name", VStr "Hasher")]
            ++ ("next_tasks", VList [VStr "x"]) :: [("path", VStr "/tmp/f")]))
    Samples.w0
  = Basetask.from_dict Samples.E2
      (VDict ([("name", VStr "Hasher")] ++ [("path", VStr "/tmp/f")]))
      Samples.w0.
Proof.
  apply (@from_dict_ignores_other_keys Samples.E2 Samples.w0 "next_tasks").
  simpl. intros [H | [H | [H | [H | [H | [H | []]]]]]]; discriminate.
Defined.

(** X18. Reconstruction of a payload whose name finds no type raises
    [IndexError], and of one whose name is bound to two or more types
    raises the assertion error of [find_tasks]; the state is left as it
    was. *)
Theorem from_dict_lookup_failures :
  forall (E : Basetask.env) (w : Basetask.world) (d : list (string * value))
         (X : string),
    Basetask.scans E false w ->
    dict_find "name" d = Some (VStr X) ->
    (Basetask.named X (Basetask.universe w E) = [] ->
     Basetask.from_dict E (VDict d) w
     = (Raise (Exn IndexError "list index out of range"), w))
    /\ (2 <= List.length (Basetask.named X (Basetask.universe w E)) ->
        Basetask.from_dict E (VDict d) w = (Raise (Exn AssertionError X), w)).
Proof.
  intros E w d X Hs Hn. rewrite from_dict_steps, Hn.
  rewrite (find_tasks_scanning X Hs), scan_named, length_map. cbn [fst].
  split; intros H.
  - now rewrite H.
  - destruct (Nat.leb_spec
                (List.length (Basetask.named X (Basetask.universe w E))) 1);
      [lia | reflexivity].
Qed.

Lemma from_dict_lookup_failures_witness :
  Basetask.from_dict Samples.E3
    (VDict [("name", VStr "Image"); ("path", VStr "/tmp/f")]) Samples.w0
  = (Raise (Exn IndexError "list index out of range"), Samples.w0)
  /\ Basetask.from_dict Samples.E3
       (VDict [("name", VStr "Hasher"); ("path", VStr "/tmp/f")]) Samples.w0
     = (Raise (Exn AssertionError "Hasher"), Samples.w0).
Proof.
  split.
  - apply (proj1 (@from_dict_lookup_failures Samples.E3 Samples.w0
                    [("name", VStr "Image"); ("path", VStr "/tmp/f")] "Image"
                    (or_intror eq_refl) eq_refl)).
    reflexivity.
  - apply (proj2 (@from_dict_lookup_failures Samples.E3 Samples.w0
                    [("name", VStr "Hasher"); ("path", VStr "/tmp/f")]
                    "Hasher" (or_intror eq_refl) eq_refl)).
    vm_compute. lia.
Defined.

(** X19. Malformed payloads: a payload that is not a dict raises
    [TypeError]; a dict without [name] raises [KeyError] for [name],
    before anything else is looked at; with a name that finds a class,
    a dict without [path] raises [KeyError] for [path], and one whose
    [args] is not an empty iterable raises [TypeError].  No instance is
    returned and the state is left as it was. *)
Theorem from_dict_malformed :
  forall (E : Basetask.env) (w : Basetask.world),
    (forall v : value,
        (forall d, v <> VDict d) ->
        Basetask.from_dict E v w = (Raise (Exn TypeError "name"), w))
    /\ (forall d : list (string * value),
          dict_find "name" d = None ->
          Basetask.from_dict E (VDict d) w = (Raise (Exn KeyError "name"), w))
    /\ (forall (d : list (string * value)) (name : value)
               (c : Basetask.cid) (rest : list Basetask.cid),
          dict_find "name" d = Some name ->
          fst (Basetask.find_tasks E name false w) = Ok (c :: rest) ->
          (dict_find "path" d = None ->
           Basetask.from_dict E (VDict d) w
           = (Raise (Exn KeyError "path"), w))
          /\ (forall path : value,
                dict_find "path" d = Some path ->
                Basetask.unpack (dict_get d "args" (VList [])) <> Some [] ->
                Basetask.from_dict E (VDict d) w
                = (Raise (Exn TypeError "args"), w))).
Proof.
  intros E w. split; [| split].
  - intros v Hv. destruct v; try reflexivity. now destruct (Hv d).
  - intros d Hn. now rewrite from_dict_steps, Hn.
  - intros d name c rest Hn Hf. rewrite from_dict_steps, Hn, Hf. split.
    + now intros ->.
    + intros path -> Ha.
      destruct (Basetask.unpack (dict_get d "args" (VList [])))
        as [[| a args] |]; [now destruct Ha | reflexivity | reflexivity].
Qed.

Lemma from_dict_malformed_witness :
  Basetask.from_dict Samples.E2 (VStr "Hasher") Samples.w0
  = (Raise (Exn TypeError "name"), Samples.w0)
  /\ Basetask.from_dict Samples.E2 (VDict [("path", VStr "/tmp/f")])
       Samples.w0
     = (Raise (Exn KeyError "name"), Samples.w0)
  /\ Basetask.from_dict Samples.E2 (VDict [("name", VStr "Hasher")])
       Samples.w0
     = (Raise (Exn KeyError "path"), Samples.w0)
  /\ Basetask.from_dict Samples.E2
       (VDict [("name", VStr "Hasher"); ("path", VStr "/tmp/f");
               ("args", VList [VInt 1])]) Samples.w0
     = (Raise (Exn TypeError "args"), Samples.w0).
Proof.
  destruct (@from_dict_malformed Samples.E2 Samples.w0) as (H1 & H2 & H3).
  split; [| split; [| split]].
  - apply H1. discriminate.
  - apply H2. reflexivity.
  - apply (proj1 (H3 [("name", VStr "Hasher")] (VStr "Hasher") 1 []
                    eq_refl eq_refl)).
    reflexivity.
  - apply (proj2 (H3 [("name", VStr "Hasher"); ("path", VStr "/tmp/f");
                      ("args", VList [VInt 1])] (VStr "Hasher") 1 []
                    eq_refl eq_refl) (VStr "/tmp/f"));
      [reflexivity | discriminate].
Defined.

(** X20. What [from_dict] returns: it never changes the state, and an
    instance it returns comes from a dict payload, has the path, the
    boolean [completed] (false by default), the [priority] (0 by
    default) and the [result] (None by default) of the payload, the
    name of its own class, and an empty queue. *)
Theorem from_dict_returns :
  forall (E : Basetask.env) (w : Basetask.world) (v : value),
    snd (Basetask.from_dict E v w) = w
    /\ forall t : Basetask.task,
        fst (Basetask.from_dict E v w) = Ok t ->
        exists d : list (string * value),
          v = VDict d
          /\ dict_find "path" d = Some (Basetask._path t)
          /\ dict_get d "completed" (VBool false) = VBool (Basetask._done t)
          /\ Basetask._priority t
             = dict_get d "priority" (VInt Basetask.PRIO_NORMAL)
          /\ Basetask._result t = dict_get d "result" VNone
          /\ Basetask._name t
             = Basetask.__name__ (Basetask.classes w (Basetask._cls t))
          /\ Basetask._next_tasks t = [].
Proof.
  intros E w v. destruct v as [| b | z | s | l | d];
    try (split; [reflexivity | intros t H; discriminate]).
  rewrite from_dict_steps. split; [reflexivity |].
  intros t H. cbn [fst] in H. exists d. split; [reflexivity |].
  destruct (dict_find "name" d) as [name |]; [| discriminate].
  destruct (fst (Basetask.find_tasks E name false w)) as [[| c l] | e];
    try discriminate.
  destruct (dict_find "path" d) as [path |]; [| discriminate].
  destruct (Basetask.unpack (dict_get d "args" (VList [])))
    as [[| a args] |]; try discriminate.
  rewrite restore_result in H.
  destruct (dict_get d "completed" (VBool false)) as [| b | | | |];
    try discriminate.
  injection H as <-. repeat split.
Qed.

(** X21. [from_dict] builds an instance of the first class that
    [find_tasks] returns for the payload's name, without comparing
    names: a payload whose name is [None] is reconstructed as the first
    discovered type, and on a cache hit every payload is reconstructed
    as the first cached type. *)
Theorem from_dict_first_class :
  forall (E : Basetask.env) (w : Basetask.world) (d : list (string * value))
         (name path : value) (c : Basetask.cid) (rest : list Basetask.cid),
    dict_find "name" d = Some name ->
    dict_find "path" d = Some path ->
    dict_find "args" d = None ->
    dict_find "completed" d = None ->
    (name = VNone /\ fst (Basetask.find_tasks E VNone false w) = Ok (c :: rest))
    \/ (Basetask.ENABLE_TASKS_CACHE E = true
        /\ Basetask._tasks_cache w = Some (c :: rest)) ->
    exists t : Basetask.task,
      Basetask.from_dict E (VDict d) w = (Ok t, w)
      /\ Basetask._cls t = c
      /\ Basetask._name t = Basetask.__name__ (Basetask.classes w c).
Proof.
  intros E w d name path c rest Hn Hp Ha Hc H.
  assert (Hf : fst (Basetask.find_tasks E name false w) = Ok (c :: rest)).
  { destruct H as [[-> H] | [He Hw]]; [exact H |].
    unfold Basetask.find_tasks, bind, get, ret. simpl.
    now rewrite He, Hw. }
  rewrite from_dict_steps, Hn, Hf, Hp, restore_result.
  unfold dict_get. rewrite Ha, Hc. simpl.
  eexists. repeat split.
Qed.

Lemma from_dict_first_class_witness :
  (exists t : Basetask.task,
      Basetask.from_dict Samples.E2
        (VDict [("name", VNone); ("path", VStr "/tmp/f")]) Samples.w0
      = (Ok t, Samples.w0)
      /\ Basetask._cls t = 1
      /\ Basetask._name t = Basetask.__name__ (Basetask.classes Samples.w0 1))
  /\ (exists t : Basetask.task,
        Basetask.from_dict Samples.E2
          (VDict [("name", VStr "Image"); ("path", VStr "/tmp/f")])
          Samples.w_cached
        = (Ok t, Samples.w_cached)
        /\ Basetask._cls t = 1
        /\ Basetask._name t
           = Basetask.__name__ (Basetask.classes Samples.w_cached 1)).
Proof.
  split.
  - apply (@from_dict_first_class Samples.E2 Samples.w0
             [("name", VNone); ("path", VStr "/tmp/f")] VNone (VStr "/tmp/f")
             1 [2]); try reflexivity.
    left. split; reflexivity.
  - apply (@from_dict_first_class Samples.E2 Samples.w_cached
             [("name", VStr "Image"); ("path", VStr "/tmp/f")] (VStr "Image")
             (VStr "/tmp/f") 1 [2]); try reflexivity.
    right. split; reflexivity.
Defined.

(** X22. Reconstruction from a payload that only names a type and a
    path gives the instance that the constructor gives for that path
    with the default priority. *)
Theorem from_dict_minimal :
  forall (E : Basetask.env) (w : Basetask.world) (d : list (string * value))
         (name path : value) (c : Basetask.cid) (rest : list Basetask.cid),
    dict_find "name" d = Some name ->
    fst (Basetask.find_tasks E name false w) = Ok (c :: rest) ->
    dict_find "path" d = Some path ->
    dict_find "args" d = None ->
    dict_find "priority" d = None ->
    dict_find "completed" d = None ->
    dict_find "result" d = None ->
    Basetask.from_dict E (VDict d) w
    = (Ok (Basetask.new w c path (VInt Basetask.PRIO_NORMAL)), w).
Proof.
  intros E w d name path c rest Hn Hf Hp Ha Hpr Hc Hr.
  rewrite from_dict_steps, Hn, Hf, Hp, restore_result.
  unfold dict_get. now rewrite Ha, Hpr, Hc, Hr.
Qed.

Lemma from_dict_minimal_witness :
  Basetask.from_dict Samples.E2 (VDict Samples.payload_short) Samples.w0
  = (Ok (Basetask.new Samples.w0 1 (VStr "/tmp/f")
           (VInt Basetask.PRIO_NORMAL)), Samples.w0).
Proof.
  apply (@from_dict_minimal Samples.E2 Samples.w0 Samples.payload_short
           (VStr "Hasher") (VStr "/tmp/f") 1 []);
    reflexivity.
Defined.

(* ================================================================== *)
(** * More about the lifecycle *)
(* ================================================================== *)

(** X23. The setter of [done] accepts booleans only: assigning [True]
    or [False] changes the flag and nothing else, and assigning any
    other value, the integers 0 and 1 and [None] included, raises and
    leaves the instance as it was. *)
Theorem done_setter_checked :
  forall (w : Basetask.world) (t : Basetask.task) (v : value),
    (forall b : bool,
        v = VBool b ->
        Basetask.done_setter w v t = (Ok tt, Basetask.set__done b t)
        /\ Basetask.done (snd (Basetask.done_setter w v t)) = b
        /\ Basetask._result (snd (Basetask.done_setter w v t))
           = Basetask._result t
        /\ Basetask._next_tasks (snd (Basetask.done_setter w v t))
           = Basetask._next_tasks t)
    /\ ((forall b : bool, v <> VBool b) ->
        Basetask.done_setter w v t
        = (Raise (Exn Exception
                      ("Value for "
                       ++ Basetask.__name__
                            (Basetask.classes w (Basetask._cls t))
                       ++ ".done must be a boolean")%string), t)).
Proof.
  intros w t v. split.
  - intros b ->. repeat split.
  - intros H. destruct v as [| b | | | |]; try reflexivity.
    now destruct (H b).
Qed.

(** X24. A task whose class inherits [run] from [BaseTask] cannot be
    started: [start] raises [NotImplementedError] and leaves the task
    not completed, whatever it was before, with everything else as it
    was. *)
Theorem start_without_run :
  forall (w : Basetask.world) (t : Basetask.task),
    Basetask.run (Basetask.classes w (Basetask._cls t))
    = Basetask.BaseTask_run ->
    Basetask.start w t
    = (Raise (Exn NotImplementedError
                  "Attempted to call virtual method `run`, this method must be overridden"),
       Basetask.set__done false t)
    /\ Basetask.get_result (snd (Basetask.start w t)) = VNone.
Proof.
  intros w t H. rewrite start_run, H. split; reflexivity.
Qed.

Lemma start_without_run_witness :
  Basetask.start Samples.w0
    (Basetask.mkTask 7 "Stub" (VStr "/tmp/f") true (VInt 1) (VInt 0) [])
  = (Raise (Exn NotImplementedError
                "Attempted to call virtual method `run`, this method must be overridden"),
     Basetask.mkTask 7 "Stub" (VStr "/tmp/f") false (VInt 1) (VInt 0) [])
  /\ Basetask.get_result
       (snd (Basetask.start Samples.w0
               (Basetask.mkTask 7 "Stub" (VStr "/tmp/f") true (VInt 1)
                  (VInt 0) [])))
     = VNone.
Proof.
  apply (@start_without_run Samples.w0
           (Basetask.mkTask 7 "Stub" (VStr "/tmp/f") true (VInt 1) (VInt 0)
              [])).
  reflexivity.
Defined.

(** X25. [start] resets before it runs: when a task that was completed
    is started again and its work routine, which never assigns the
    completion flag, raises, the task is no longer completed and
    [get_result] gives [None], also when the routine left a result
    stored. *)
Theorem start_again_failure :
  forall (w : Basetask.world) (t : Basetask.task) (e : exn)
         (t1 : Basetask.task),
    Basetask.keeps_done (Basetask.run (Basetask.classes w (Basetask._cls t))) ->
    Basetask.run (Basetask.classes w (Basetask._cls t))
      (Basetask.set__done false t) = (Raise e, t1) ->
    Basetask.start w t = (Raise e, t1)
    /\ Basetask.done t1 = false
    /\ Basetask.get_result t1 = VNone.
Proof.
  intros w t e t1 Hk Hr. rewrite start_run, Hr.
  specialize (Hk (Basetask.set__done false t)). rewrite Hr in Hk.
  simpl in Hk. unfold Basetask.get_result, Basetask.done. rewrite Hk.
  repeat split.
Qed.

Lemma start_again_failure_witness :
  Basetask.start Samples.w0
    (Basetask.mkTask 7 "Stub" (VStr "/tmp/f") true (VInt 1) (VInt 0) [])
  = (Raise (Exn NotImplementedError
                "Attempted to call virtual method `run`, this method must be overridden"),
     Basetask.mkTask 7 "Stub" (VStr "/tmp/f") false (VInt 1) (VInt 0) [])
  /\ Basetask.done
       (Basetask.mkTask 7 "Stub" (VStr "/tmp/f") false (VInt 1) (VInt 0) [])
     = false
  /\ Basetask.get_result
       (Basetask.mkTask 7 "Stub" (VStr "/tmp/f") false (VInt 1) (VInt 0) [])
     = VNone.
Proof.
  apply (@start_again_failure Samples.w0
           (Basetask.mkTask 7 "Stub" (VStr "/tmp/f") true (VInt 1) (VInt 0)
              [])).
  - intros self. reflexivity.
  - reflexivity.
Defined.

(** X26. Queueing follow-up tasks touches the queue only: after any
    sequence of [add_next_task] the completion flag, the result, what
    [get_result] gives and every field of [to_dict] other than
    [next_tasks] are as before, and [to_dict] lists one string per
    queued item. *)
Theorem add_next_tasks_frame :
  forall (t : Basetask.task) (items : list value),
    let t' := snd (Basetask.add_next_tasks items t) in
    fst (Basetask.add_next_tasks items t) = Ok tt
    /\ Basetask.done t' = Basetask.done t
    /\ Basetask.get_result t' = Basetask.get_result t
    /\ (forall k : string,
          k <> "next_tasks" ->
          match Basetask.to_dict t', Basetask.to_dict t with
          | VDict d', VDict d => dict_find k d' = dict_find k d
          | _, _ => False
          end)
    /\ match Basetask.to_dict t' with
       | VDict d' =>
           exists l : list string,
             dict_find "next_tasks" d' = Some (VList (map VStr l))
             /\ List.length l
                = List.length (Basetask._next_tasks t) + List.length items
       | _ => False
       end.
Proof.
  intros t items t'. subst t'. rewrite add_next_tasks_appends. simpl.
  repeat split.
  - intros k Hk.
    repeat (destruct (String.eqb k _); [reflexivity |]).
    destruct (String.eqb_spec k "next_tasks"); [contradiction | reflexivity].
  - eexists. split; [reflexivity |].
    unfold Basetask.get_next_tasks. simpl.
    now rewrite length_map, length_app.
Qed.

(* ================================================================== *)
(** * The JSON text *)
(* ================================================================== *)

Section JsonFacts.

Import Json.

Local Open Scope string_scope.

Lemma all_printable_app (s1 s2 : string) :
  all_printable (s1 ++ s2) = all_printable s1 && all_printable s2.
Proof.
  induction s1 as [| c s1 IH]; simpl; [reflexivity |].
  now rewrite IH, andb_assoc.
Qed.

Lemma escape_char_printable (c : ascii) :
  all_printable (escape_char c) = true.
Proof.
  destruct c as [[] [] [] [] [] [] [] []]; reflexivity.
Qed.

Lemma escape_printable (s : string) : all_printable (escape s) = true.
Proof.
  induction s as [| c s IH]; simpl; [reflexivity |].
  now rewrite all_printable_app, escape_char_printable, IH.
Qed.

Lemma encode_str_printable (s : string) :
  all_printable (encode_str s) = true.
Proof.
  unfold encode_str. simpl.
  now rewrite all_printable_app, escape_printable.
Qed.

Lemma string_of_uint_printable (d : Decimal.uint) :
  all_printable (NilZero.string_of_uint d) = true.
Proof.
  destruct d as [| d | d | d | d | d | d | d | d | d | d];
    try reflexivity; simpl;
    induction d as [| d IH | d IH | d IH | d IH | d IH | d IH | d IH | d IH
                    | d IH | d IH]; simpl; auto.
Qed.

Lemma string_of_int_printable (z : Z) :
  all_printable (NilZero.string_of_int (Z.to_int z)) = true.
Proof.
  unfold NilZero.string_of_int.
  destruct (Z.to_int z) as [d | d]; simpl;
    apply string_of_uint_printable.
Qed.

Lemma concat_printable (sep : string) (l : list string) :
  all_printable sep = true ->
  Forall (fun s => all_printable s = true) l ->
  all_printable (String.concat sep l) = true.
Proof.
  intros Hs H. induction H as [| s l Hx Hl IH]; [reflexivity |].
  simpl. destruct l as [| s' l]; [exact Hx |].
  now rewrite !all_printable_app, Hx, Hs, IH.
Qed.

Lemma dumps_printable : forall v : value, all_printable (dumps v) = true.
Proof.
  fix IH 1. intros [| [] | z | s | l | d]; try reflexivity.
  - apply string_of_int_printable.
  - apply encode_str_printable.
  - simpl. rewrite all_printable_app, andb_true_r.
    apply concat_printable; [reflexivity |].
    revert l. fix IHl 1. intros [| v l]; constructor; [apply IH | apply IHl].
  - simpl. rewrite all_printable_app, andb_true_r.
    apply concat_printable; [reflexivity |].
    revert d. fix IHd 1. intros [| [k v] d]; constructor; [| apply IHd].
    simpl. rewrite !all_printable_app, escape_printable. simpl. apply IH.
Qed.

End JsonFacts.

(** X27. The JSON text of a task, and every string returned by
    [get_next_tasks], is made of printable ASCII characters only:
    quotes, backslashes, control characters and characters above the
    tilde inside strings are written as escapes. *)
Theorem to_json_printable :
  forall t : Basetask.task,
    Json.all_printable (Basetask.to_json t) = true
    /\ Forall (fun s => Json.all_printable s = true)
         (Basetask.get_next_tasks t).
Proof.
  intros t. split; [apply dumps_printable |].
  unfold Basetask.get_next_tasks. apply Forall_map, Forall_forall.
  intros v _. apply dumps_printable.
Qed.

(* ================================================================== *)
(** * Reading the JSON text back *)
(* ================================================================== *)

Section LoadsFacts.

Local Open Scope string_scope.

Import Json Loads.

Lemma value_ind' (P : value -> Prop) :
  P VNone ->
  (forall b, P (VBool b)) ->
  (forall z, P (VInt z)) ->
  (forall s, P (VStr s)) ->
  (forall l, Forall P l -> P (VList l)) ->
  (forall d, Forall (fun kv => P (snd kv)) d -> P (VDict d)) ->
  forall v, P v.
Proof.
  intros HN HB HI HS HL HD. fix IH 1. intros [| b | z | s | l | d].
  - exact HN.
  - apply HB.
  - apply HI.
  - apply HS.
  - apply HL. revert l. fix IHl 1. intros [| v l]; constructor;
      [apply IH | apply IHl].
  - apply HD. revert d. fix IHd 1. intros [| [k v] d]; constructor;
      [apply IH | apply IHd].
Qed.

Lemma string_app_assoc (a b c : string) : (a ++ b) ++ c = a ++ (b ++ c).
Proof. induction a as [| x a IH]; simpl; [reflexivity | now rewrite IH]. Qed.

(** Strings *)

Lemma scanstring_escape_char (c : ascii) (tl : string) :
  scanstring (escape_char c ++ tl) = cons_char c (scanstring tl).
Proof.
  destruct c as [[] [] [] [] [] [] [] []]; reflexivity.
Qed.

Lemma scanstring_escape (s rest : string) :
  scanstring (escape s ++ String quote rest) = Some (s, rest).
Proof.
  induction s as [| c s IH]; simpl; [reflexivity |].
  now rewrite string_app_assoc, scanstring_escape_char, IH.
Qed.

Lemma encode_str_app (s rest : string) :
  encode_str s ++ rest = String quote (escape s ++ String quote rest).
Proof.
  unfold encode_str. simpl. now rewrite string_app_assoc.
Qed.

(** Numbers *)

Lemma read_uint_string (d : Decimal.uint) (rest : string) :
  no_digit rest ->
  read_uint (NilEmpty.string_of_uint d ++ rest) = (d, rest).
Proof.
  intros H. induction d; simpl; try (rewrite IHd; reflexivity).
  destruct rest as [| c r]; [reflexivity |]. simpl in *. now rewrite H.
Qed.

Lemma to_uint_head (p : positive) :
  match Pos.to_uint p with
  | Decimal.Nil | Decimal.D0 _ => False
  | _ => True
  end.
Proof.
  pose proof (DecimalPos.Unsigned.to_of (Pos.to_uint p)) as E.
  rewrite DecimalPos.Unsigned.of_to in E. simpl in E.
  pose proof (DecimalPos.Unsigned.to_uint_nonzero p) as Hz.
  unfold Decimal.unorm in E.
  destruct (Decimal.nzhead (Pos.to_uint p)) eqn:En;
    try (rewrite E; exact I).
  - now rewrite E in Hz.
  - exfalso. exact (DecimalFacts.nzhead_nonzero _ _ En).
Qed.

Lemma scan_int_string (d : Decimal.uint) (rest : string) :
  no_digit rest ->
  match d with
  | Decimal.Nil | Decimal.D0 _ => False
  | _ => True
  end ->
  scan_int (NilZero.string_of_uint d ++ rest) = Some (d, rest).
Proof.
  intros H Hd. destruct d; try contradiction;
    unfold NilZero.string_of_uint, scan_int;
    rewrite <- (@read_uint_string _ rest H); reflexivity.
Qed.

Lemma scan_number_pos (d : Decimal.uint) (rest : string) :
  stop rest ->
  match d with
  | Decimal.Nil | Decimal.D0 _ => False
  | _ => True
  end ->
  scan_number (NilZero.string_of_uint d ++ rest)
  = Some (Z.of_int (Decimal.Pos d), rest).
Proof.
  intros H Hd.
  assert (Hn : no_digit rest) by (destruct rest; [exact I | apply H]).
  assert (Hf : float_follows rest = false)
    by (destruct rest; [reflexivity | apply H]).
  destruct d; try contradiction;
    unfold scan_number, NilZero.string_of_uint, scan_int; simpl;
    rewrite (@read_uint_string _ rest Hn), Hf; reflexivity.
Qed.

Lemma scan_number_neg (d : Decimal.uint) (rest : string) :
  stop rest ->
  match d with
  | Decimal.Nil | Decimal.D0 _ => False
  | _ => True
  end ->
  scan_number (String "-" (NilZero.string_of_uint d ++ rest))
  = Some (Z.of_int (Decimal.Neg d), rest).
Proof.
  intros H Hd.
  assert (Hn : no_digit rest) by (destruct rest; [exact I | apply H]).
  assert (Hf : float_follows rest = false)
    by (destruct rest; [reflexivity | apply H]).
  unfold scan_number. simpl.
  now rewrite (@scan_int_string _ rest Hn Hd), Hf.
Qed.

Lemma scan_number_string (z : Z) (rest : string) :
  stop rest ->
  scan_number (NilZero.string_of_int (Z.to_int z) ++ rest) = Some (z, rest).
Proof.
  intros H.
  assert (Hn : no_digit rest) by (destruct rest; [exact I | apply H]).
  assert (Hf : float_follows rest = false)
    by (destruct rest; [reflexivity | apply H]).
  destruct z as [| p | p].
  - unfold scan_number. simpl. now rewrite Hf.
  - change (NilZero.string_of_int (Z.to_int (Z.pos p)))
      with (NilZero.string_of_uint (Pos.to_uint p)).
    rewrite (@scan_number_pos _ rest H (to_uint_head p)).
    change (Decimal.Pos (Pos.to_uint p)) with (Z.to_int (Zpos p)).
    now rewrite DecimalZ.of_to.
  - change (NilZero.string_of_int (Z.to_int (Z.neg p)) ++ rest)
      with (String "-" (NilZero.string_of_uint (Pos.to_uint p) ++ rest)).
    rewrite (@scan_number_neg _ rest H (to_uint_head p)).
    change (Decimal.Neg (Pos.to_uint p)) with (Z.to_int (Zneg p)).
    now rewrite DecimalZ.of_to.
Qed.

(** Whitespace *)

Lemma dumps_head (v : value) :
  exists c tl, dumps v = String c tl /\ is_ws c = false.
Proof.
  destruct v as [| [] | z | s | l | d]; try (do 2 eexists; split; reflexivity).
  destruct z as [| p | p]; try (do 2 eexists; split; reflexivity).
  simpl. pose proof (to_uint_head p) as H.
  destruct (Pos.to_uint p); try contradiction;
    do 2 eexists; split; reflexivity.
Qed.

Lemma skip_ws_dumps (v : value) (r : string) :
  skip_ws (dumps v ++ r) = dumps v ++ r.
Proof.
  destruct (dumps_head v) as (c & tl & -> & H). simpl. now rewrite H.
Qed.

(** Dicts without a repeated key *)

Lemma dict_set_fresh (k : string) (v : value) (d : list (string * value)) :
  ~ In k (map fst d) -> dict_set k v d = (d ++ [(k, v)])%list.
Proof.
  induction d as [| [k' v'] d IH]; simpl; intros H; [reflexivity |].
  destruct (String.eqb_spec k k') as [-> | Hne]; [tauto |].
  rewrite IH; [reflexivity | tauto].
Qed.

Lemma dict_of_pairs_nodup (d : list (string * value)) :
  NoDup (map fst d) -> dict_of_pairs d = d.
Proof.
  unfold dict_of_pairs.
  enough (G : forall acc,
             NoDup (map fst (acc ++ d)%list) ->
             fold_left (fun d kv => dict_set (fst kv) (snd kv) d) d acc
             = (acc ++ d)%list) by (apply (G [])).
  induction d as [| [k v] d IH]; intros acc H; simpl.
  - now rewrite List.app_nil_r.
  - rewrite dict_set_fresh.
    + rewrite IH; rewrite <- List.app_assoc; [reflexivity | exact H].
    + rewrite map_app in H. apply NoDup_remove_2 in H.
      intros Hin. apply H. apply in_or_app. now left.
Qed.

(** Containers *)

Lemma elements_text_concat (l : list value) (rest : string) :
  l <> [] ->
  String.concat ", " (map dumps l) ++ String "]" rest = elements_text l rest.
Proof.
  induction l as [| x l IH]; intros H; [contradiction |].
  destruct l as [| y l]; [reflexivity |].
  change (String.concat ", " (map dumps (x :: y :: l)))
    with (dumps x ++ ", " ++ String.concat ", " (map dumps (y :: l))).
  rewrite !string_app_assoc. rewrite IH by discriminate. reflexivity.
Qed.

Lemma members_text_concat (d : list (string * value)) (rest : string) :
  d <> [] ->
  String.concat ", "
    (map (fun kv => encode_str (fst kv) ++ ": " ++ dumps (snd kv)) d)
  ++ String "}" rest
  = String quote (members_text d rest).
Proof.
  induction d as [| [k v] d IH]; intros H; [contradiction |].
  destruct d as [| kv d].
  - simpl. rewrite !string_app_assoc. reflexivity.
  - change (String.concat ", "
              (map (fun kv => encode_str (fst kv) ++ ": " ++ dumps (snd kv))
                 ((k, v) :: kv :: d)))
      with ((encode_str k ++ ": " ++ dumps v) ++ ", " ++
            String.concat ", "
              (map (fun kv => encode_str (fst kv) ++ ": " ++ dumps (snd kv))
                 (kv :: d))).
    rewrite !string_app_assoc. rewrite IH by discriminate.
    rewrite encode_str_app. simpl. rewrite ?string_app_assoc. reflexivity.
Qed.

Lemma elements_reads (l : list value) :
  Forall reads l ->
  fold_right (fun x P => well_formed x /\ P) True l ->
  l <> [] ->
  forall fuel rest,
    fold_right (fun x n => S (size x) + n) 0 l <= fuel ->
    elements fuel (elements_text l rest) = Some (l, rest).
Proof.
  induction 1 as [| x l Hx Hl IH]; intros Hw Hne fuel rest Hf;
    [contradiction |].
  destruct Hw as [Hwx Hwl]. simpl in Hf.
  destruct fuel as [| fuel]; [lia |].
  destruct l as [| y l].
  - simpl. rewrite (Hx Hwx fuel (String "]" rest)); [reflexivity | | ].
    + simpl in Hf. lia.
    + split; reflexivity.
  - change (elements_text (x :: y :: l) rest)
      with (dumps x ++ String "," (String " " (elements_text (y :: l) rest))).
    cbn [elements].
    rewrite (Hx Hwx fuel); [| simpl in Hf |- *; lia | split; reflexivity].
    cbn [skip_ws is_ws existsb Ascii.eqb Bool.eqb orb].
    change (elements_text (y :: l) rest)
      with (dumps y ++ match l with
                       | [] => String "]" rest
                       | _ => String "," (String " " (elements_text l rest))
                       end).
    rewrite skip_ws_dumps.
    change (dumps y ++ match l with
                       | [] => String "]" rest
                       | _ => String "," (String " " (elements_text l rest))
                       end)
      with (elements_text (y :: l) rest).
    rewrite IH; [reflexivity | exact Hwl | discriminate
                | simpl in Hf |- *; lia].
Qed.

Lemma members_reads (d : list (string * value)) :
  Forall (fun kv => reads (snd kv)) d ->
  fold_right (fun kv P => well_formed (snd kv) /\ P) True d ->
  d <> [] ->
  forall fuel rest,
    fold_right (fun kv n => S (size (snd kv)) + n) 0 d <= fuel ->
    members fuel (members_text d rest) = Some (d, rest).
Proof.
  induction 1 as [| [k v] d Hx Hl IH]; intros Hw Hne fuel rest Hf;
    [contradiction |].
  destruct Hw as [Hwx Hwl]. simpl in Hf, Hx, Hwx.
  destruct fuel as [| fuel]; [lia |].
  destruct d as [| [k' v'] d].
  - cbn [members members_text].
    rewrite scanstring_escape.
    cbn [skip_ws is_ws existsb Ascii.eqb Bool.eqb orb].
    rewrite skip_ws_dumps.
    rewrite (Hx Hwx fuel (String "}" rest)); [reflexivity | | ].
    + simpl in Hf. lia.
    + split; reflexivity.
  - change (members_text ((k, v) :: (k', v') :: d) rest)
      with (escape k ++
            String quote
              (String ":" (String " "
                 (dumps v ++
                  String "," (String " "
                    (String quote (members_text ((k', v') :: d) rest))))))).
    cbn [members].
    rewrite scanstring_escape.
    cbn [skip_ws is_ws existsb Ascii.eqb Bool.eqb orb].
    rewrite skip_ws_dumps.
    rewrite (Hx Hwx fuel); [| simpl in Hf |- *; lia | split; reflexivity].
    cbn [skip_ws is_ws existsb Ascii.eqb Bool.eqb orb quote].
    rewrite IH; [reflexivity | exact Hwl | discriminate
                | simpl in Hf |- *; lia].
Qed.

Lemma strip_prefix_app (word rest : string) :
  strip_prefix word (word ++ rest) = Some rest.
Proof.
  induction word as [| a word IH]; simpl; [reflexivity |].
  now rewrite Ascii.eqb_refl.
Qed.

Lemma scan_once_dumps : forall v : value, reads v.
Proof.
  induction v as [| b | z | s | l IHl | d IHd] using value_ind';
    intros Hw fuel rest Hf Hs;
    (destruct fuel as [| fuel]; [simpl in Hf; lia |]).
  - reflexivity.
  - destruct b; reflexivity.
  - pose proof (@scan_number_string z rest Hs) as Hn.
    change (dumps (VInt z)) with (NilZero.string_of_int (Z.to_int z)).
    destruct (NilZero.string_of_int (Z.to_int z) ++ rest) as [| c tl] eqn:E;
      [discriminate Hn |].
    assert (Hc : existsb (Ascii.eqb c) [quote; "{"; "["; "n"; "t"; "f"]%char
                 = false).
    { destruct z as [| p | p]; simpl in E.
      - injection E as <- _. reflexivity.
      - pose proof (to_uint_head p) as Hh.
        destruct (Pos.to_uint p); try contradiction;
          injection E as <- _; reflexivity.
      - injection E as <- _. reflexivity. }
    simpl in Hc. repeat (apply orb_false_elim in Hc; destruct Hc as [? Hc]).
    cbn [scan_once]. rewrite H, H0, H1, H2, H3, H4, Hn. reflexivity.
  - change (dumps (VStr s)) with (encode_str s).
    rewrite encode_str_app. cbn [scan_once]. rewrite Ascii.eqb_refl.
    now rewrite scanstring_escape.
  - destruct l as [| x l]; [reflexivity |].
    change (dumps (VList (x :: l)) ++ rest)
      with (String "[" ((String.concat ", " (map dumps (x :: l)) ++ "]")
                        ++ rest)).
    rewrite string_app_assoc.
    change ("]" ++ rest) with (String "]" rest).
    rewrite elements_text_concat by discriminate.
    cbn [scan_once Ascii.eqb Bool.eqb quote].
    change (elements_text (x :: l) rest)
      with (dumps x ++ match l with
                       | [] => String "]" rest
                       | _ => String "," (String " " (elements_text l rest))
                       end).
    rewrite skip_ws_dumps.
    destruct (dumps_head x) as (c & tl & Hd & Hws).
    assert (Hc : Ascii.eqb c "]" = false).
    { destruct x as [| [] | z | s | l' | d']; try (injection Hd as <- _; reflexivity).
      destruct z as [| p | p]; try (injection Hd as <- _; reflexivity).
      simpl in Hd. pose proof (to_uint_head p) as Hh.
      destruct (Pos.to_uint p); try contradiction;
        injection Hd as <- _; reflexivity. }
    change (dumps x ++ match l with
                       | [] => String "]" rest
                       | _ => String "," (String " " (elements_text l rest))
                       end)
      with (elements_text (x :: l) rest).
    pose proof (@elements_reads (x :: l) IHl Hw ltac:(discriminate) fuel
                  rest ltac:(simpl in Hf |- *; lia)) as He.
    change (elements_text (x :: l) rest)
      with (dumps x ++ match l with
                       | [] => String "]" rest
                       | _ => String "," (String " " (elements_text l rest))
                       end) in He |- *.
    rewrite Hd in He |- *. simpl append in He |- *. cbv beta iota.
    rewrite Hc, He. reflexivity.
  - destruct Hw as [Hnd Hw].
    destruct d as [| [k v] d]; [reflexivity |].
    change (dumps (VDict ((k, v) :: d)) ++ rest)
      with (String "{"
              ((String.concat ", "
                  (map (fun kv => encode_str (fst kv) ++ ": " ++ dumps (snd kv))
                     ((k, v) :: d)) ++ "}") ++ rest)).
    rewrite string_app_assoc.
    change ("}" ++ rest) with (String "}" rest).
    rewrite members_text_concat by discriminate.
    cbn [scan_once skip_ws is_ws existsb Ascii.eqb Bool.eqb orb quote].
    rewrite (@members_reads ((k, v) :: d) IHd Hw ltac:(discriminate) fuel rest
               ltac:(simpl in Hf |- *; lia)).
    now rewrite dict_of_pairs_nodup.
Qed.

(** Fuel *)

Lemma string_length_app (a b : string) :
  String.length (a ++ b) = String.length a + String.length b.
Proof. induction a as [| x a IH]; simpl; [reflexivity | now rewrite IH]. Qed.

Lemma string_app_nil_r (a : string) : a ++ "" = a.
Proof. induction a as [| x a IH]; simpl; [reflexivity | now rewrite IH]. Qed.

Lemma concat_size (A : Type) (f : A -> string) (g : A -> nat) (l : list A) :
  Forall (fun x => g x <= String.length (f x)) l ->
  fold_right (fun x n => S (g x) + n) 0 l
  <= S (String.length (String.concat ", " (map f l))).
Proof.
  induction 1 as [| x l Hx Hl IH]; [simpl; lia |].
  destruct l as [| y l]; [simpl; lia |].
  change (String.concat ", " (map f (x :: y :: l)))
    with (f x ++ ", " ++ String.concat ", " (map f (y :: l))).
  rewrite !string_length_app.
  change (String.length ", ") with 2.
  cbn [fold_right] in IH |- *. lia.
Qed.

Lemma size_le_length : forall v : value, size v <= String.length (dumps v).
Proof.
  induction v as [| b | z | s | l IHl | d IHd] using value_ind'.
  - simpl. lia.
  - destruct b; simpl; lia.
  - destruct (dumps_head (VInt z)) as (c & tl & -> & _). simpl. lia.
  - destruct (dumps_head (VStr s)) as (c & tl & -> & _). simpl. lia.
  - pose proof (@concat_size _ dumps size l IHl) as H.
    change (dumps (VList l))
      with (String "[" (String.concat ", " (map dumps l) ++ "]")).
    change (size (VList l))
      with (S (fold_right (fun x n => S (size x) + n) 0 l)).
    cbn [String.length]. rewrite string_length_app.
    change (String.length "]") with 1. lia.
  - assert (H0 : Forall (fun kv : string * value =>
                           size (snd kv)
                           <= String.length
                                (encode_str (fst kv) ++ ": " ++ dumps (snd kv)))
                   d).
    { apply Forall_impl with (2 := IHd). intros [k v] H.
      cbn [fst snd] in *. rewrite !string_length_app. lia. }
    pose proof (@concat_size _
                  (fun kv => encode_str (fst kv) ++ ": " ++ dumps (snd kv))
                  (fun kv => size (snd kv)) d H0) as H.
    change (dumps (VDict d))
      with (String "{"
              (String.concat ", "
                 (map (fun kv => encode_str (fst kv) ++ ": " ++ dumps (snd kv))
                    d) ++ "}")).
    change (size (VDict d))
      with (S (fold_right (fun kv n => S (size (snd kv)) + n) 0 d)).
    cbn [String.length]. rewrite string_length_app.
    change (String.length "}") with 1. lia.
Qed.

Lemma loads_dumps (v : value) :
  well_formed v -> loads (dumps v) = Some v.
Proof.
  intros Hw.
  pose proof (@scan_once_dumps v Hw (S (String.length (dumps v))) ""
                ltac:(pose proof (size_le_length v); lia) I) as H.
  pose proof (skip_ws_dumps v "") as Hs.
  rewrite string_app_nil_r in H, Hs.
  unfold loads. now rewrite Hs, H.
Qed.

End LoadsFacts.

Section FromJson.

Import Basetask.

Lemma well_formed_strings (l : list string) :
  fold_right (fun x P => Loads.well_formed x /\ P) True (map VStr l).
Proof. induction l as [| x l IH]; simpl; [exact I | now split]. Qed.

Lemma to_dict_well_formed (t : task) :
  Loads.well_formed (_path t) ->
  Loads.well_formed (_priority t) ->
  Loads.well_formed (_result t) ->
  Loads.well_formed (to_dict t).
Proof.
  intros Hp Hpr Hr. unfold to_dict. split.
  - simpl. repeat constructor; simpl; intuition discriminate.
  - simpl. repeat split; try assumption.
    + unfold get_result. now destruct (done t).
    + apply well_formed_strings.
Qed.

End FromJson.

(** X28. Decoding inverts encoding: [json.loads] applied to the text
    that [json.dumps] writes for a value gives the value back, for
    every value in which no dict binds a key twice. *)
Theorem json_loads_dumps :
  forall v : value,
    Loads.well_formed v -> Loads.loads (Json.dumps v) = Some v.
Proof.
  intros v Hw. now apply loads_dumps.
Qed.

Lemma json_loads_dumps_witness :
  Loads.loads (Json.dumps (Basetask.to_dict Samples.hashed))
  = Some (Basetask.to_dict Samples.hashed).
Proof.
  apply (@json_loads_dumps (Basetask.to_dict Samples.hashed)).
  split.
  - simpl. repeat constructor; simpl; intuition discriminate.
  - simpl. repeat split.
Defined.

(** X29. The JSON round trip: [from_json (to_json t)] gives what
    [from_dict (to_dict t)] gives, an instance of the first class found
    for the name of [t] with the path, priority and completion flag of
    [t], the result that [get_result] gives on [t] and an empty queue,
    when the path, priority and result of [t] are values in which no
    dict binds a key twice. *)
Theorem from_json_to_json :
  forall (E : Basetask.env) (w : Basetask.world) (t : Basetask.task)
         (c : Basetask.cid) (rest : list Basetask.cid),
    Loads.well_formed (Basetask._path t) ->
    Loads.well_formed (Basetask._priority t) ->
    Loads.well_formed (Basetask._result t) ->
    fst (Basetask.find_tasks E (VStr (Basetask._name t)) false w)
    = Ok (c :: rest) ->
    option_map (fun m => m w) (Basetask.from_json E (Basetask.to_json t))
    = Some (Ok (Basetask.mkTask c
                  (Basetask.__name__ (Basetask.classes w c))
                  (Basetask._path t) (Basetask._done t)
                  (Basetask.get_result t) (Basetask._priority t) []), w).
Proof.
  intros E w t c rest Hp Hpr Hr Hf.
  unfold Basetask.from_json, Basetask.to_json.
  rewrite (@loads_dumps _ (@to_dict_well_formed t Hp Hpr Hr)).
  cbn [option_map].
  now rewrite (from_dict_to_dict E w t Hf).
Qed.

Lemma from_json_to_json_witness :
  option_map (fun m => m Samples.w0)
    (Basetask.from_json Samples.E2 (Basetask.to_json Samples.hashed))
  = Some (Ok (Basetask.mkTask 1 "Hasher" (VStr "/tmp/f") true
                (VStr "d41d8cd9") (VInt 0) []), Samples.w0).
Proof.
  apply (@from_json_to_json Samples.E2 Samples.w0 Samples.hashed 1 []);
    try exact I.
  reflexivity.
Defined.

(** X30. Feeding [get_next_tasks] to [from_json]: each string returned
    decodes to the item that was queued, so [from_json] on it does what
    [from_dict] does on the item.  An item queued as a dict is
    reconstructed from that dict; an item queued as a JSON string
    decodes to a string, on which [from_json] raises [TypeError]. *)
Theorem from_json_next_tasks :
  forall (E : Basetask.env) (t : Basetask.task),
    Forall Loads.well_formed (Basetask._next_tasks t) ->
    map (Basetask.from_json E) (Basetask.get_next_tasks t)
    = map (fun item => Some (Basetask.from_dict E item))
        (Basetask._next_tasks t)
    /\ forall (s : string) (w : Basetask.world),
        option_map (fun m => m w)
          (Basetask.from_json E (Json.dumps (VStr s)))
        = Some (Raise (Exn TypeError "name"), w).
Proof.
  intros E t H. split.
  - unfold Basetask.get_next_tasks. rewrite map_map.
    induction H as [| v l Hv Hl IH]; simpl; [reflexivity |].
    rewrite IH. unfold Basetask.from_json at 1.
    now rewrite (@loads_dumps v Hv).
  - intros s w. unfold Basetask.from_json.
    now rewrite (@loads_dumps (VStr s) I).
Qed.

Lemma from_json_next_tasks_witness :
  map (Basetask.from_json Samples.E2)
    (Basetask.get_next_tasks
       (snd (Basetask.add_next_task Samples.follow_up Samples.hashed)))
  = map (fun item => Some (Basetask.from_dict Samples.E2 item))
      (Basetask._next_tasks
         (snd (Basetask.add_next_task Samples.follow_up Samples.hashed))).
Proof.
  apply (@from_json_next_tasks Samples.E2
           (snd (Basetask.add_next_task Samples.follow_up Samples.hashed))).
  repeat constructor; simpl; intuition discriminate.
Defined.
